(** * Energy Spent Tracker: a shallow embedding of [energy_tracker.py]

    The development follows the three sections of the program:
    input validation helpers, business logic and CSV persistence, and the
    menu-driven user interface.  Python values are modelled as follows:

    - [str] is Rocq's [string]; a character is an 8-bit [ascii] (code points
      below 128 behave as in Python, the bytes of a UTF-8 literal are kept
      as they are);
    - [float] is the primitive binary64 [float] of the kernel, so the float
      arithmetic of the program is evaluated bit for bit;
    - a dict is a finite map ([gmap]) from keys to dynamically typed values;
    - [input] and [print] act on an explicit console (the replies still to
      be read, and the transcript written so far); exceptions are explicit
      outcomes;
    - the file system is a finite map from paths to the text of the files.

    The library functions the program calls are modelled after CPython:
    [float] and [int] on strings, [str] on floats, [str.strip] and
    [str.lower], and the reader and the writer of the [csv] module in its
    default dialect, with its field size limit. *)

From stdpp Require Import base option list gmap strings.
From Stdlib Require Import Ascii String ZArith QArith Floats Lia.

Set Warnings "-inexact-float,-abstract-large-number".
Close Scope Q_scope.
Local Open Scope Z_scope.

(** ** Characters and the [str] methods used by the program *)

Definition LF : ascii := Ascii.ascii_of_nat 10.
Definition CR : ascii := Ascii.ascii_of_nat 13.
Definition DQUOTE : ascii := Ascii.ascii_of_nat 34.
Definition COMMA : ascii := Ascii.ascii_of_nat 44.

Definition code (c : ascii) : Z := Z.of_nat (Ascii.nat_of_ascii c).

(** Python's whitespace below code point 128: [\t \n \v \f \r], the four
    separators [\x1c..\x1f] and the space. *)
Definition is_space (c : ascii) : bool :=
  ((9 <=? code c) && (code c <=? 13)) ||
  ((28 <=? code c) && (code c <=? 31)) ||
  (code c =? 32).

Definition is_digit (c : ascii) : bool := (48 <=? code c) && (code c <=? 57).
Definition digit_value (c : ascii) : Z := code c - 48.

Definition lower_char (c : ascii) : ascii :=
  if (65 <=? code c) && (code c <=? 90)
  then Ascii.ascii_of_nat (Ascii.nat_of_ascii c + 32)
  else c.

Fixpoint lower (s : string) : string :=
  match s with
  | EmptyString => EmptyString
  | String c s' => String (lower_char c) (lower s')
  end.

Fixpoint lstrip (s : string) : string :=
  match s with
  | EmptyString => EmptyString
  | String c s' => if is_space c then lstrip s' else s
  end.

Definition rstrip (s : string) : string := String.rev (lstrip (String.rev s)).

(** [s.strip()] *)
Definition strip (s : string) : string := rstrip (lstrip s).

(** [not s] for a string: the empty string is falsy. *)
Definition is_empty (s : string) : bool :=
  match s with EmptyString => true | String _ _ => false end.

Definition str1 (c : ascii) : string := String c EmptyString.

Fixpoint repeat_char (c : ascii) (n : nat) : string :=
  match n with
  | O => EmptyString
  | S n' => String c (repeat_char c n')
  end.

(** ** Numbers

    The calculator functions are duck typed: they only multiply, divide and
    use the integer literals [1000] and [30].  [PyNumber] is that implicit
    interface; the program runs them on floats, and exact fractions serve as
    the arithmetic reference. *)

Class PyNumber (T : Type) := {
  py_mul : T -> T -> T;
  py_truediv : T -> T -> T;
  py_int : Z -> T
}.

(** [float(n)] for an integer [n]: the nearest binary64 value. *)
Definition float_of_Z (n : Z) : float :=
  SF2Prim (binary_normalize prec emax n 0 false).

#[export] Instance float_number : PyNumber float :=
  {| py_mul := PrimFloat.mul; py_truediv := PrimFloat.div; py_int := float_of_Z |}.

#[export] Instance fraction_number : PyNumber Q :=
  {| py_mul := Qmult; py_truediv := Qdiv; py_int := inject_Z |}.

(** The value of the decimal numeral [m * 10^e] (with [m >= 0]) rounded to
    the nearest binary64 float, ties to even, as [float(str)] computes it;
    out of range values become infinities, tiny ones denormals or zero. *)
Definition float_of_decimal (neg : bool) (m e : Z) : float :=
  SF2Prim
    (if m =? 0 then S754_zero neg
     else if 0 <=? e then
       binary_normalize prec emax (if neg then - (m * 10 ^ e) else m * 10 ^ e) 0 neg
     else
       let '(q, e', l) := SFdiv_core_binary prec emax m 0 (10 ^ (- e)) 0 in
       binary_round_aux prec emax neg q e' l).

(** ** [float(s)] and [int(s)] on strings

    [None] stands for the [ValueError] Python raises on a malformed
    numeral. *)

(** Digit grouping: an underscore is accepted only between two digits, and
    is dropped before the numeral is read. *)
Fixpoint drop_underscores (prev : option ascii) (s : string) : option string :=
  match s with
  | EmptyString =>
      if bool_decide (prev = Some "_"%char) then None else Some EmptyString
  | String c s' =>
      if bool_decide (c = "_"%char) then
        match prev with
        | Some p => if is_digit p then drop_underscores (Some c) s' else None
        | None => None
        end
      else if bool_decide (prev = Some "_"%char) && negb (is_digit c) then None
      else String c <$> drop_underscores (Some c) s'
  end.

(** A run of digits: the value accumulated so far, the number of digits
    read, and what follows the run. *)
Fixpoint read_digits (s : string) (acc n : Z) : Z * Z * string :=
  match s with
  | EmptyString => (acc, n, s)
  | String c s' =>
      if is_digit c then read_digits s' (10 * acc + digit_value c) (n + 1)
      else (acc, n, s)
  end.

Definition read_sign (s : string) : bool * string :=
  match s with
  | String "-"%char s' => (true, s')
  | String "+"%char s' => (false, s')
  | _ => (false, s)
  end.

(** What may follow the mantissa: nothing, or [e], an optional sign and at
    least one digit, up to the end of the string. *)
Definition parse_exponent (s : string) : option Z :=
  match s with
  | EmptyString => Some 0
  | String c s' =>
      if bool_decide (lower_char c = "e"%char) then
        let '(neg, s1) := read_sign s' in
        let '(v, n, s2) := read_digits s1 0 0 in
        if (0 <? n) && is_empty s2 then Some (if neg then - v else v) else None
      else None
  end.

Definition parse_decimal (neg : bool) (s : string) : option float :=
  let '(ip, ni, s1) := read_digits s 0 0 in
  let '(m, nf, s2) :=
    match s1 with
    | String "."%char s1' => read_digits s1' ip 0
    | _ => (ip, 0, s1)
    end in
  if 0 <? ni + nf then
    match parse_exponent s2 with
    | Some e => Some (float_of_decimal neg m (e - nf))
    | None => None
    end
  else None.

(** [float(s)]: surrounding whitespace is ignored; the numeral is an
    optionally signed [inf], [infinity] or [nan] in any case, or a decimal
    numeral with optional fraction and exponent. *)
Definition float_of_string (s : string) : option float :=
  match drop_underscores None (strip s) with
  | None => None
  | Some u =>
      let '(neg, r) := read_sign u in
      let l := lower r in
      if String.eqb l "inf" || String.eqb l "infinity"
      then Some (if neg then neg_infinity else infinity)
      else if String.eqb l "nan" then Some nan
      else parse_decimal neg r
  end.

(** [int(s)] in base ten: surrounding whitespace, an optional sign, digits
    with optional grouping underscores.  The interpreter's configurable cap
    on the number of digits is not modelled. *)
Definition int_of_string (s : string) : option Z :=
  match drop_underscores None (strip s) with
  | None => None
  | Some u =>
      let '(neg, r) := read_sign u in
      let '(v, n, rest) := read_digits r 0 0 in
      if (0 <? n) && is_empty rest then Some (if neg then - v else v) else None
  end.

(** ** [str(x)] for a float: the shortest decimal string that reads back
    as [x], laid out as [repr] does. *)

(** [N / D < 10 ^ k] *)
Definition lt_pow10 (N D k : Z) : bool :=
  if 0 <=? k then N <? D * 10 ^ k else N * 10 ^ (- k) <? D.

(** The position of the decimal point: the [k] with
    [10 ^ (k - 1) <= N / D < 10 ^ k], reached from an estimate. *)
Fixpoint adjust_decpt (fuel : nat) (N D k : Z) : Z :=
  match fuel with
  | O => k
  | S fuel' =>
      if lt_pow10 N D k then
        if lt_pow10 N D (k - 1) then adjust_decpt fuel' N D (k - 1) else k
      else adjust_decpt fuel' N D (k + 1)
  end.

Definition decimal_point (N D : Z) : Z :=
  adjust_decpt 8 N D (((Z.log2 N - Z.log2 D) * 30103) / 100000).

(** The decimal numerals with [n] significant digits on either side of
    [N / D], the nearer one first. *)
Definition candidates (N D k : Z) (n : Z) : Z * Z :=
  let s := n - k in
  let num := if 0 <=? s then N * 10 ^ s else N in
  let den := if 0 <=? s then D else D * 10 ^ (- s) in
  let q := num / den in
  let r := num mod den in
  if (2 * r <? den) || ((2 * r =? den) && Z.even q) then (q, q + 1) else (q + 1, q).

Definition reads_back (x : float) (c k n : Z) : bool :=
  PrimFloat.eqb (float_of_decimal false c (k - n)) x.

(** Digits and decimal point of the shortest numeral; [17] digits always
    suffice for a binary64 value. *)
Fixpoint shortest_from (fuel : nat) (x : float) (N D k n : Z) : Z * Z * Z :=
  let '(c1, c2) := candidates N D k n in
  match fuel with
  | O => (c1, k, n)
  | S fuel' =>
      if reads_back x c1 k n then (c1, k, n)
      else if reads_back x c2 k n then (c2, k, n)
      else shortest_from fuel' x N D k (n + 1)
  end.

Definition shortest_digits (m : positive) (e : Z) : string * Z :=
  let N := Z.pos m * 2 ^ Z.max e 0 in
  let D := 2 ^ Z.max (- e) 0 in
  let k := decimal_point N D in
  let '(c, k, n) := shortest_from 16 (SF2Prim (S754_finite false m e)) N D k 1 in
  if c =? 10 ^ n then ("1", k + 1) else (pretty.pretty (Z.to_N c), k).

Definition format_fixed (ds : string) (k : Z) : string :=
  let n := Z.of_nat (String.length ds) in
  if k <=? 0 then "0." +:+ repeat_char "0" (Z.to_nat (- k)) +:+ ds
  else if k <? n then
    substring 0 (Z.to_nat k) ds +:+ "." +:+
    substring (Z.to_nat k) (Z.to_nat (n - k)) ds
  else ds +:+ repeat_char "0" (Z.to_nat (k - n)) +:+ ".0".

Definition format_exponent (ds : string) (k : Z) : string :=
  let e := k - 1 in
  let mant :=
    match ds with
    | String d EmptyString => ds
    | String d rest => String d ("." +:+ rest)
    | EmptyString => ds
    end in
  let digits := pretty.pretty (Z.to_N (Z.abs e)) in
  mant +:+ "e" +:+ (if e <? 0 then "-" else "+") +:+
  (if Z.abs e <? 10 then "0" +:+ digits else digits).

(** [repr(x)], which is also [str(x)]: exponent notation when the decimal
    point falls more than four places before or sixteen places after the
    first digit. *)
Definition float_repr (x : float) : string :=
  match Prim2SF x with
  | S754_nan => "nan"
  | S754_infinity s => if s then "-inf" else "inf"
  | S754_zero s => if s then "-0.0" else "0.0"
  | S754_finite s m e =>
      let '(ds, k) := shortest_digits m e in
      (if s then "-" else EmptyString) +:+
      (if (-4 <? k) && (k <=? 16) then format_fixed ds k else format_exponent ds k)
  end.

(** ** Business logic *)

Section Calculator.
Context {T : Type} `{PyNumber T}.

Definition calculate_daily_kwh (watts hours_per_day : T) : T :=
  let daily_kwh := py_truediv (py_mul watts hours_per_day) (py_int 1000) in
  daily_kwh.

Definition calculate_monthly_kwh (daily_kwh : T) : T :=
  let monthly_kwh := py_mul daily_kwh (py_int 30) in
  monthly_kwh.

Definition calculate_cost (kwh price_per_kwh : T) : T :=
  py_mul kwh price_per_kwh.
End Calculator.

(** [add_appliance] builds the record kept in the list; the values of a
    dict of the program are strings, floats and [None]. *)
Inductive value :=
| VStr (s : string)
| VFloat (x : float)
| VNone.

(** A Python dict with string keys.  The only other key the program ever
    meets is [None], under which [csv.DictReader] stores the surplus cells
    of a row that is longer than the header ([extra]). *)
Record dict := Dict {
  items : gmap string value;
  extra : option (list string)
}.

Definition dict_set (k : string) (v : value) (d : dict) : dict :=
  {| items := <[k := v]> (items d); extra := extra d |}.

Definition add_appliance (name : string) (watts hours_per_day : float) : dict :=
  let appliance :=
    {| items := <["hours_per_day" := VFloat hours_per_day]>
                  (<["watts" := VFloat watts]> (<["name" := VStr name]> ∅));
       extra := None |} in
  appliance.

Inductive exn :=
| EOFError
| ValueError
| TypeError
| KeyError (k : string)
| IndexError
| CsvError.

Inductive result (A : Type) :=
| Return (a : A)
| Raised (e : exn).
Arguments Return {A} a.
Arguments Raised {A} e.

(** ** The [csv] module, excel dialect

    This is the behaviour of the standard library the program relies on:
    delimiter comma, the double quote as quote character, doubled inside a
    quoted field, rows ended by CR LF, a field quoted only when it has to be. *)

Definition special (c : ascii) : bool :=
  bool_decide (c = COMMA) || bool_decide (c = DQUOTE) ||
  bool_decide (c = CR) || bool_decide (c = LF).

Fixpoint needs_quotes (s : string) : bool :=
  match s with
  | EmptyString => false
  | String c s' => special c || needs_quotes s'
  end.

(** The body of a quoted field followed by the closing quote. *)
Fixpoint quoted_tail (s : string) : string :=
  match s with
  | EmptyString => str1 DQUOTE
  | String c s' =>
      if bool_decide (c = DQUOTE) then String DQUOTE (String DQUOTE (quoted_tail s'))
      else String c (quoted_tail s')
  end.

Definition write_field (s : string) : string :=
  if needs_quotes s then String DQUOTE (quoted_tail s) else s.

Fixpoint join_fields (fs : list string) : string :=
  match fs with
  | [] => EmptyString
  | [f] => write_field f
  | f :: fs' => write_field f +:+ String COMMA (join_fields fs')
  end.

Definition CRLF : string := String CR (str1 LF).

(** [writer.writerow(fs)]: a row made of one empty field is written as a
    pair of quotes, so that it is not read back as a blank line. *)
Definition writerow (fs : list string) : string :=
  match fs with
  | [EmptyString] => String DQUOTE (str1 DQUOTE) +:+ CRLF
  | _ => join_fields fs +:+ CRLF
  end.

Inductive parse_state :=
| START_RECORD
| START_FIELD
| IN_FIELD
| IN_QUOTED_FIELD
| QUOTE_IN_QUOTED_FIELD
| EAT_CRNL.

#[export] Instance parse_state_eq_dec : EqDecision parse_state.
Proof. solve_decision. Defined.

(** The reader object: the cells of the record read so far (last one
    first), and the characters of the current cell (last one first). *)
Record reader := Reader {
  pstate : parse_state;
  fields : list string;
  field : string;
  field_len : Z
}.

(** [csv.field_size_limit()] *)
Definition field_limit : Z := 131072.

Definition parse_reset : reader :=
  {| pstate := START_RECORD; fields := []; field := EmptyString; field_len := 0 |}.

Definition set_state (st : parse_state) (r : reader) : reader :=
  {| pstate := st; fields := fields r; field := field r; field_len := field_len r |}.

(** [None] is the [csv.Error] raised for a cell longer than the limit. *)
Definition parse_add_char (c : ascii) (r : reader) : option reader :=
  if field_limit <=? field_len r then None
  else Some {| pstate := pstate r; fields := fields r;
               field := String c (field r); field_len := field_len r + 1 |}.

Definition parse_save_field (r : reader) : reader :=
  {| pstate := pstate r; fields := String.rev (field r) :: fields r;
     field := EmptyString; field_len := 0 |}.

(** What the reader is fed: a character of the line, or the end of the
    line. *)
Inductive feed :=
| Char (c : ascii)
| EOL.

Definition is_newline (c : feed) : bool :=
  match c with
  | Char c => bool_decide (c = LF) || bool_decide (c = CR)
  | EOL => true
  end.

Definition after_newline (c : feed) : parse_state :=
  match c with EOL => START_RECORD | Char _ => EAT_CRNL end.

Definition start_field (c : feed) (r : reader) : option reader :=
  match c with
  | EOL => Some (set_state START_RECORD (parse_save_field r))
  | Char a =>
      if is_newline c then Some (set_state EAT_CRNL (parse_save_field r))
      else if bool_decide (a = DQUOTE) then Some (set_state IN_QUOTED_FIELD r)
      else if bool_decide (a = COMMA) then Some (parse_save_field r)
      else set_state IN_FIELD <$> parse_add_char a r
  end.

Definition parse_process_char (c : feed) (r : reader) : option reader :=
  match pstate r with
  | START_RECORD =>
      match c with
      | EOL => Some r
      | Char a =>
          if is_newline c then Some (set_state EAT_CRNL r)
          else start_field c (set_state START_FIELD r)
      end
  | START_FIELD => start_field c r
  | IN_FIELD =>
      match c with
      | EOL => Some (set_state START_RECORD (parse_save_field r))
      | Char a =>
          if is_newline c then Some (set_state EAT_CRNL (parse_save_field r))
          else if bool_decide (a = COMMA)
               then Some (set_state START_FIELD (parse_save_field r))
          else parse_add_char a r
      end
  | IN_QUOTED_FIELD =>
      match c with
      | EOL => Some r
      | Char a =>
          if bool_decide (a = DQUOTE) then Some (set_state QUOTE_IN_QUOTED_FIELD r)
          else parse_add_char a r
      end
  | QUOTE_IN_QUOTED_FIELD =>
      match c with
      | EOL => Some (set_state START_RECORD (parse_save_field r))
      | Char a =>
          if bool_decide (a = DQUOTE)
          then set_state IN_QUOTED_FIELD <$> parse_add_char a r
          else if bool_decide (a = COMMA)
               then Some (set_state START_FIELD (parse_save_field r))
          else if is_newline c then Some (set_state EAT_CRNL (parse_save_field r))
          else set_state IN_FIELD <$> parse_add_char a r
      end
  | EAT_CRNL =>
      match c with
      | EOL => Some (set_state START_RECORD r)
      | Char a => if is_newline c then Some r else None
      end
  end.

(** The reader is fed one line, character by character, then the end of
    the line. *)
Fixpoint feed_line (line : string) (r : reader) : option reader :=
  match line with
  | EmptyString => parse_process_char EOL r
  | String c line' =>
      match parse_process_char (Char c) r with
      | Some r' => feed_line line' r'
      | None => None
      end
  end.

(** The rows the reader yields from the lines of a file, and the error
    that ends the iteration, if any.  A record goes on over the next line
    while a quoted field is open; at the end of the input an open record is
    yielded as it stands. *)
Fixpoint reader_rows (lines : list string) (r : reader)
  : list (list string) * option exn :=
  match lines with
  | [] =>
      if (0 <? field_len r) || bool_decide (pstate r = IN_QUOTED_FIELD)
      then ([reverse (fields (parse_save_field r))], None)
      else ([], None)
  | line :: lines' =>
      match feed_line line r with
      | None => ([], Some CsvError)
      | Some r' =>
          if bool_decide (pstate r' = START_RECORD) then
            let '(rows, err) := reader_rows lines' parse_reset in
            (reverse (fields r') :: rows, err)
          else reader_rows lines' r'
      end
  end.

(** Iterating over a text file opened with [newline=""]: a line ends after
    LF, after CR LF, or after a CR that no LF follows, and keeps its
    ending. *)
Definition ends_line (c : ascii) (next : string) : bool :=
  bool_decide (c = LF) ||
  (bool_decide (c = CR) &&
   match next with
   | String c' _ => negb (bool_decide (c' = LF))
   | EmptyString => true
   end).

Fixpoint splitlines (s : string) : list string :=
  match s with
  | EmptyString => []
  | String c s' =>
      if ends_line c s' then str1 c :: splitlines s'
      else match splitlines s' with
           | [] => [str1 c]
           | l :: ls => String c l :: ls
           end
  end.

Definition csv_reader (text : string) : list (list string) * option exn :=
  reader_rows (splitlines text) parse_reset.

(** [csv.DictReader]: the first row names the columns; blank rows are
    skipped; a short row is padded with [None], the surplus of a long row
    is kept under the key [None]. *)
Definition make_dict (fieldnames row : list string) : dict :=
  let lf := List.length fieldnames in
  let lr := List.length row in
  let cells := (VStr <$> row) ++ replicate (lf - lr)%nat VNone in
  {| items := foldl (fun m kv => <[kv.1 := kv.2]> m) ∅ (zip fieldnames cells);
     extra := if bool_decide (lf < lr)%nat then Some (drop lf row) else None |}.

Definition is_blank (row : list string) : bool :=
  match row with [] => true | _ => false end.

Definition dict_reader (text : string) : list dict * option exn :=
  match csv_reader text with
  | ([], err) => ([], err)
  | (header :: rows, err) =>
      (make_dict header <$> filter (fun row => negb (is_blank row)) rows, err)
  end.

(** [csv.DictWriter] with the three columns of the program. *)
Definition fieldnames : list string := ["name"; "watts"; "hours_per_day"].

(** How the writer renders a cell: a string as it is, [None] as the empty
    string, anything else through [str]. *)
Definition cell_text (v : value) : string :=
  match v with
  | VStr s => s
  | VFloat x => float_repr x
  | VNone => EmptyString
  end.

(** A dict with a key that is not a column is refused with [ValueError];
    a missing column is written empty. *)
Definition dict_to_list (d : dict) : result (list string) :=
  if bool_decide (dom (items d) ⊆ list_to_set fieldnames) &&
     bool_decide (extra d = None)
  then Return ((fun k => from_option cell_text EmptyString (items d !! k)) <$> fieldnames)
  else Raised ValueError.

(** ** Data persistence *)

(** The rows are written one by one; when a row is refused, what was
    written before it stays in the file. *)
Fixpoint write_rows (appliances : list dict) (text : string) : string * option exn :=
  match appliances with
  | [] => (text, None)
  | appliance :: appliances' =>
      match dict_to_list appliance with
      | Return row => write_rows appliances' (text +:+ writerow row)
      | Raised e => (text, Some e)
      end
  end.

(** The file system maps the path of a readable text file to its
    content; a path that is not in the map does not exist. *)
Definition save_appliances_to_csv (appliances : list dict) (filename : string)
    (fs : gmap string string) : gmap string string * option exn :=
  let '(text, err) := write_rows appliances (writerow fieldnames) in
  (<[filename := text]> fs, err).

(** [float(v)] on a value of a row. *)
Definition to_float (v : value) : result float :=
  match v with
  | VStr s =>
      match float_of_string s with
      | Some x => Return x
      | None => Raised ValueError
      end
  | VFloat x => Return x
  | VNone => Raised TypeError
  end.

(** [row[k] = float(row[k])] *)
Definition convert_field (k : string) (row : dict) : result dict :=
  match items row !! k with
  | None => Raised (KeyError k)
  | Some v =>
      match to_float v with
      | Return x => Return (dict_set k (VFloat x) row)
      | Raised e => Raised e
      end
  end.

Definition convert_row (row : dict) : result dict :=
  match convert_field "watts" row with
  | Return row' => convert_field "hours_per_day" row'
  | Raised e => Raised e
  end.

(** The loop over the rows of the reader: the first row that cannot be
    converted ends the load with its exception, and so does an error of
    the reader once the rows before it are converted. *)
Fixpoint load_rows (rows : list dict) (err : option exn) : result (list dict) :=
  match rows with
  | [] =>
      match err with
      | Some e => Raised e
      | None => Return []
      end
  | row :: rows' =>
      match convert_row row with
      | Raised e => Raised e
      | Return appliance =>
          match load_rows rows' err with
          | Return appliances => Return (appliance :: appliances)
          | Raised e => Raised e
          end
      end
  end.

(** A file that does not exist gives the empty list: the
    [FileNotFoundError] of [open] is the one exception the function
    catches. *)
Definition load_appliances_from_csv (filename : string) (fs : gmap string string)
  : result (list dict) :=
  match fs !! filename with
  | None => Return []
  | Some text =>
      let '(rows, err) := dict_reader text in
      load_rows rows err
  end.

(** ** The console

    [print] and the prompt of [input] append to the transcript.  A line is
    kept as the fragments of the f-string it comes from, so that the
    rendering of numbers in the transcript needs no model. *)
Inductive frag :=
| Lit (s : string)
| Num (n : Z)
| Val (v : value)
| Fixed (digits : nat) (x : float).

Inductive event :=
| Print (line : list frag)
| Prompt (line : list frag).

(** The state of a session: the appliance list shared by the menu actions,
    the replies the user has still to type, the transcript, and the file
    system. *)
Record world := World {
  appliances : list dict;
  stdin : list string;
  stdout : list event;
  files : gmap string string
}.

Inductive outcome (A : Type) :=
| Ok (a : A) (w : world)
| Raise (e : exn) (w : world)
| Timeout (w : world).
Arguments Ok {A} a w.
Arguments Raise {A} e w.
Arguments Timeout {A} w.

Definition M (A : Type) : Type := world -> outcome A.

#[export] Instance M_ret : MRet M := fun A a w => Ok a w.

#[export] Instance M_bind : MBind M := fun A B f m w =>
  match m w with
  | Ok a w' => f a w'
  | Raise e w' => Raise e w'
  | Timeout w' => Timeout w'
  end.

Definition raise {A : Type} (e : exn) : M A := fun w => Raise e w.

Definition lift {A : Type} (r : result A) : M A :=
  match r with
  | Return a => mret a
  | Raised e => raise e
  end.

Definition get_appliances : M (list dict) := fun w => Ok (appliances w) w.

Definition set_appliances (l : list dict) : M unit := fun w =>
  Ok tt {| appliances := l; stdin := stdin w; stdout := stdout w; files := files w |}.

Definition emit (e : event) (w : world) : world :=
  {| appliances := appliances w; stdin := stdin w;
     stdout := stdout w ++ [e]; files := files w |}.

Definition print (line : list frag) : M unit := fun w => Ok tt (emit (Print line) w).

(** [input(prompt)]: the prompt is written, then the next reply is read;
    at the end of the input Python raises [EOFError]. *)
Definition input (prompt : list frag) : M string := fun w =>
  match stdin w with
  | [] => Raise EOFError (emit (Prompt prompt) w)
  | reply :: replies =>
      Ok reply (emit (Prompt prompt)
                  {| appliances := appliances w; stdin := replies;
                     stdout := stdout w; files := files w |})
  end.

(** [while True]: the body answers [Some a] to return [a] and [None] to go
    round again.  Every loop of the program reads a reply on each round, so
    one round more than there are replies is enough fuel. *)
Fixpoint while_true {A : Type} (fuel : nat) (body : M (option A)) : M A :=
  match fuel with
  | O => fun w => Timeout w
  | S fuel' =>
      r ← body;
      match r with
      | Some a => mret a
      | None => while_true fuel' body
      end
  end.

Definition loop {A : Type} (body : M (option A)) : M A := fun w =>
  while_true (S (List.length (stdin w))) body w.

Fixpoint for_each {A : Type} (f : A -> M unit) (l : list A) : M unit :=
  match l with
  | [] => mret tt
  | x :: l' => f x;; for_each f l'
  end.

Definition enumerate {A : Type} (l : list A) : list (Z * A) :=
  imap (fun i x => (Z.of_nat i, x)) l.

(** [d[k]] *)
Definition getitem (d : dict) (k : string) : M value :=
  match items d !! k with
  | Some v => mret v
  | None => raise (KeyError k)
  end.

(** The position a Python index denotes in a list of length [n]; negative
    indices count from the end. *)
Definition position (i : Z) (n : nat) : option nat :=
  if (0 <=? i) && (i <? Z.of_nat n) then Some (Z.to_nat i)
  else if (- Z.of_nat n <=? i) && (i <? 0) then Some (Z.to_nat (Z.of_nat n + i))
  else None.

(** [appliances[i]] *)
Definition appliance_at (i : Z) : M dict :=
  apps ← get_appliances;
  match position i (List.length apps) ≫= (apps !!.) with
  | Some app => mret app
  | None => raise IndexError
  end.

(** [appliances[i][k] = v]: the dict in the list is updated in place. *)
Definition setitem_at (i : Z) (k : string) (v : value) : M unit :=
  apps ← get_appliances;
  match position i (List.length apps) with
  | Some n => set_appliances (alter (dict_set k v) n apps)
  | None => raise IndexError
  end.

(** [appliances.pop(i)] *)
Definition pop (i : Z) : M unit :=
  apps ← get_appliances;
  match position i (List.length apps) with
  | Some n => set_appliances (delete n apps)
  | None => raise IndexError
  end.

(** [appliances.append(app)] *)
Definition append (app : dict) : M unit :=
  apps ← get_appliances;
  set_appliances (apps ++ [app]).

Definition nl : string := str1 LF.

(** ** Helper functions for input validation *)

(** One round of the loop of [get_positive_float]. *)
Definition get_positive_float_body (prompt : list frag) : M (option float) :=
  reply ← input prompt;
  match float_of_string reply with
  | Some value =>
      if (0 <? value)%float then mret (Some value)
      else print [Lit "❌ Please enter a positive number."];; mret None
  | None =>
      print [Lit "❌ Invalid input. Please enter a valid number."];; mret None
  end.

Definition get_positive_float (prompt : list frag) : M float :=
  loop (get_positive_float_body prompt).

(** One round of the loop of [get_int]. *)
Definition get_int_body (prompt : list frag) (min_value max_value : option Z)
  : M (option Z) :=
  reply ← input prompt;
  match int_of_string reply with
  | Some value =>
      if from_option (fun m => value <? m) false min_value ||
         from_option (fun m => m <? value) false max_value
      then print [Lit "❌ Invalid selection. Please try again."];; mret None
      else mret (Some value)
  | None =>
      print [Lit "❌ Invalid input. Please enter a number."];; mret None
  end.

Definition get_int (prompt : list frag) (min_value max_value : option Z) : M Z :=
  loop (get_int_body prompt min_value max_value).

(** ** User interface functions *)

Definition show_menu : M string :=
  print [Lit (nl +:+ "===== 🔌 ENERGY SPENT TRACKER =====")];;
  print [Lit "1. Add an appliance"];;
  print [Lit "2. Calculate usage and cost of a single appliance"];;
  print [Lit "3. Calculate total usage and cost of all appliances"];;
  print [Lit "4. Edit appliance list"];;
  print [Lit "5. View all appliances"];;
  print [Lit "0. Exit"];;
  input [Lit "Choose an option: "].

(** The operands of the float arithmetic; Python raises [TypeError] when
    one of them is a string or [None]. *)
Definition as_floats (a b : value) : M (float * float) :=
  match a, b with
  | VFloat x, VFloat y => mret (x, y)
  | _, _ => raise TypeError
  end.

Definition is_nil {A : Type} (l : list A) : bool :=
  match l with [] => true | _ => false end.

(** The sub-menu of [edit_appliance]: what is done to the appliance at
    index [choice] on the sub-option chosen; every branch goes back to the
    list of appliances. *)
Definition edit_sub_action (choice : Z) (app : dict) (sub_option : string)
  : M (option unit) :=
  if bool_decide (sub_option = "1") then
    name ← getitem app "name";
    reply ← input [Lit "Enter new name (current: "; Val name; Lit "): "];
    let new_name := strip reply in
    (if negb (is_empty new_name) then
       setitem_at choice "name" (VStr new_name);;
       print [Lit "✅ Name updated successfully!"]
     else print [Lit "❌ Name cannot be empty."]);;
    mret None
  else if bool_decide (sub_option = "2") then
    watts ← getitem app "watts";
    new_watts ← get_positive_float
      [Lit "Enter new watts (current: "; Val watts; Lit "W): "];
    setitem_at choice "watts" (VFloat new_watts);;
    print [Lit "✅ Watts updated successfully!"];;
    mret None
  else if bool_decide (sub_option = "3") then
    hours ← getitem app "hours_per_day";
    new_hours ← get_positive_float
      [Lit "Enter new hours per day (current: "; Val hours; Lit "h): "];
    setitem_at choice "hours_per_day" (VFloat new_hours);;
    print [Lit "✅ Hours updated successfully!"];;
    mret None
  else if bool_decide (sub_option = "4") then
    name ← getitem app "name";
    reply ← input [Lit "Are you sure you want to delete '"; Val name;
                   Lit "'? (y/n): "];
    let confirm := lower (strip reply) in
    (if bool_decide (confirm = "y") then
       pop choice;;
       print [Lit "🗑️ Appliance deleted successfully!"]
     else print [Lit "❌ Deletion canceled."]);;
    mret None
  else if bool_decide (sub_option = "0") then
    print [Lit "↩️ Returning to appliance list."];;
    mret None
  else
    print [Lit "❌ Invalid option."];;
    mret None.

(** The listing of the edit menu. *)
Definition edit_listing (apps : list dict) : M unit :=
  for_each (fun '(i, app) =>
      name ← getitem app "name";
      watts ← getitem app "watts";
      hours ← getitem app "hours_per_day";
      print [Num (i + 1); Lit ". "; Val name; Lit " | "; Val watts; Lit "W | ";
             Val hours; Lit "h/day"])
    (enumerate apps).

(** One round of the loop of [edit_appliance]. *)
Definition edit_appliance_body : M (option unit) :=
  print [Lit (nl +:+ "🔧 Edit Appliances:")];;
  apps ← get_appliances;
  edit_listing apps;;
  choice ← get_int
    [Lit "Select the appliance number to edit, or 0 to go back to the main menu: "]
    (Some 0) None;
  let choice := choice - 1 in
  if choice =? -1 then
    print [Lit "↩️ Returning to main menu."];; mret (Some tt)
  else
    apps ← get_appliances;
    if (0 <=? choice) && (choice <? Z.of_nat (List.length apps)) then
      app ← appliance_at choice;
      name ← getitem app "name";
      print [Lit (nl +:+ "Selected appliance: "); Val name];;
      print [Lit "1. Edit name"];;
      print [Lit "2. Edit watts"];;
      print [Lit "3. Edit hours per day"];;
      print [Lit "4. Delete appliance"];;
      print [Lit "0. Go back to appliance list"];;
      reply ← input [Lit "Choose an option: "];
      let sub_option := strip reply in
      edit_sub_action choice app sub_option
    else
      print [Lit "❌ Invalid selection."];;
      mret None.

Definition edit_appliance : M unit :=
  apps ← get_appliances;
  if is_nil apps then print [Lit "⚠️ No appliances to edit."]
  else loop edit_appliance_body.

Definition view_appliances : M unit :=
  apps ← get_appliances;
  if is_nil apps then print [Lit "⚠️ No appliances added yet."]
  else
    print [Lit (nl +:+ "📋 Registered Appliances:")];;
    for_each (fun '(i, app) =>
        name ← getitem app "name";
        watts ← getitem app "watts";
        hours ← getitem app "hours_per_day";
        print [Num (i + 1); Lit ". "; Val name; Lit " || "; Val watts; Lit "W || ";
               Val hours; Lit "h/day"])
      (enumerate apps).

(** The branches of the loop of [main] on the option chosen: [Some tt]
    leaves the loop. *)
Definition main_dispatch : string -> M (option unit) := fun option =>
  if bool_decide (option = "1") then
    reply ← input [Lit "Enter appliance name: "];
    let name := strip reply in
    if is_empty name then
      print [Lit "❌ Appliance name cannot be empty."];;
      mret None
    else
      watts ← get_positive_float [Lit "Enter power (in watts): "];
      hours_per_day ← get_positive_float [Lit "Enter hours used per day: "];
      append (add_appliance name watts hours_per_day);;
      print [Lit "✅ "; Val (VStr name); Lit " added successfully!"];;
      mret None
  else if bool_decide (option = "2") then
    apps ← get_appliances;
    if is_nil apps then
      print [Lit "⚠️ No appliances added yet."];;
      mret None
    else
      for_each (fun '(i, app) =>
          name ← getitem app "name";
          print [Num (i + 1); Lit ". "; Val name])
        (enumerate apps);;
      apps ← get_appliances;
      choice ← get_int [Lit "Select appliance number: "]
                 (Some 1) (Some (Z.of_nat (List.length apps)));
      let choice := choice - 1 in
      price_per_kwh ← get_positive_float [Lit "Enter price per kWh (e.g. 0.5): "];
      app ← appliance_at choice;
      watts ← getitem app "watts";
      hours ← getitem app "hours_per_day";
      '(watts, hours) ← as_floats watts hours;
      let daily := calculate_daily_kwh watts hours in
      let monthly := calculate_monthly_kwh daily in
      let cost := calculate_cost monthly price_per_kwh in
      name ← getitem app "name";
      print [Lit (nl +:+ "📊 "); Val name];;
      print [Lit "Daily usage: "; Fixed 2 daily; Lit " kWh"];;
      print [Lit "Monthly usage: "; Fixed 2 monthly; Lit " kWh"];;
      print [Lit "Estimated cost: $"; Fixed 2 cost];;
      mret None
  else if bool_decide (option = "3") then
    apps ← get_appliances;
    if is_nil apps then
      print [Lit "⚠️ No appliances added yet."];;
      mret None
    else
      price_per_kwh ← get_positive_float [Lit "Enter price per kWh (e.g. 0.5): "];
      print [Lit (nl +:+ "📊 INDIVIDUAL APPLIANCE USAGE:")];;
      apps ← get_appliances;
      '(total_monthly_kwh, total_cost) ←
        foldl (fun totals app =>
            '(total_monthly_kwh, total_cost) ← totals;
            watts ← getitem app "watts";
            hours ← getitem app "hours_per_day";
            '(watts, hours) ← as_floats watts hours;
            let daily_kwh := calculate_daily_kwh watts hours in
            let monthly_kwh := calculate_monthly_kwh daily_kwh in
            let monthly_hours := (hours * 30)%float in
            let cost := calculate_cost monthly_kwh price_per_kwh in
            let total_monthly_kwh := (total_monthly_kwh + monthly_kwh)%float in
            let total_cost := (total_cost + cost)%float in
            name ← getitem app "name";
            print [Lit "🔹 "; Val name];;
            print [Lit "   ➤ Monthly kWh: "; Fixed 2 monthly_kwh; Lit " kWh"];;
            print [Lit "   ➤ Monthly hours used: "; Fixed 1 monthly_hours; Lit " h"];;
            print [Lit "   ➤ Estimated monthly cost: $"; Fixed 2 cost; Lit nl];;
            mret (total_monthly_kwh, total_cost))
          (mret (0%float, 0%float)) apps;
      print [Lit "📈 TOTAL ENERGY USAGE & COST"];;
      print [Lit "   ➤ Total monthly usage: "; Fixed 2 total_monthly_kwh; Lit " kWh"];;
      print [Lit "   ➤ Total estimated cost: $"; Fixed 2 total_cost];;
      mret None
  else if bool_decide (option = "4") then
    edit_appliance;;
    mret None
  else if bool_decide (option = "5") then
    view_appliances;;
    mret None
  else if bool_decide (option = "0") then
    print [Lit "👋 Exiting the program. Goodbye!"];;
    mret (Some tt)
  else
    print [Lit "❌ Invalid option. Try again."];;
    mret None.

(** One round of the loop of [main]. *)
Definition main_body : M (option unit) :=
  reply ← show_menu;
  let option := strip reply in
  main_dispatch option.

Definition get_files : M (gmap string string) := fun w => Ok (files w) w.

Definition set_files (fs : gmap string string) : M unit := fun w =>
  Ok tt {| appliances := appliances w; stdin := stdin w; stdout := stdout w; files := fs |}.

(** The entry point: load at startup, the menu loop, save on exit. *)
Definition main : M unit :=
  fs ← get_files;
  apps ← lift (load_appliances_from_csv "appliances.csv" fs);
  set_appliances apps;;
  loop main_body;;
  apps ← get_appliances;
  fs ← get_files;
  let '(fs', err) := save_appliances_to_csv apps "appliances.csv" fs in
  set_files fs';;
  match err with
  | Some e => raise e
  | None => print [Lit "Data saved to appliances.csv."]
  end.

(** * Specification vocabulary *)

(** ** Energy calculator *)

(** The two-step computation of the program, and the single formula
    [watts * hours * 30 / 1000] it is compared with. *)
Definition two_step {T : Type} `{PyNumber T} (watts hours : T) : T :=
  calculate_monthly_kwh (calculate_daily_kwh watts hours).

Definition single_formula {T : Type} `{PyNumber T} (watts hours : T) : T :=
  py_truediv (py_mul (py_mul watts hours) (py_int 30)) (py_int 1000).



(** [n] floats from [x] on, [step] apart. *)
Fixpoint float_steps (n : nat) (x step : float) : list float :=
  match n with
  | O => []
  | S n' => x :: float_steps n' (x + step)%float step
  end.

(** Household values: every whole number of watts from 1 to 10000 with
    every quarter of an hour from 0.25 to 24 hours. *)
Definition household_grid : list (float * float) :=
  watts ← float_steps 10000 1 1; hours ← float_steps 96 0.25 0.25; [(watts, hours)].

(** ** Appliances *)

(** The invariant of the data model: a non-empty name, strictly positive
    watts and hours. *)
Definition valid (d : dict) : Prop :=
  exists (name : string) (watts hours : float),
    items d !! "name" = Some (VStr name) /\ name <> EmptyString /\
    items d !! "watts" = Some (VFloat watts) /\ (0 <? watts)%float = true /\
    items d !! "hours_per_day" = Some (VFloat hours) /\ (0 <? hours)%float = true.

(** Every dict has the three columns the listings print. *)
Definition has_columns (d : dict) : Prop :=
  is_Some (items d !! "name") /\ is_Some (items d !! "watts") /\
  is_Some (items d !! "hours_per_day").

(** A property of the appliance list, as a property of the world. *)
Definition on_list (P : list dict -> Prop) (w : world) : Prop := P (appliances w).

(** [keeps I m Q]: from a world where [I] holds, [m] ends in a world where
    [I] holds, however it ends, and a value it returns satisfies [Q]. *)
Definition keeps {A : Type} (I : world -> Prop) (m : M A) (Q : A -> Prop) : Prop :=
  forall w, I w ->
    match m w with
    | Ok a w' => Q a /\ I w'
    | Raise _ w' => I w'
    | Timeout w' => I w'
    end.

(** A loop body that reads at least one reply whenever it asks for
    another round. *)
Definition consumes {A : Type} (body : M (option A)) : Prop :=
  forall w w', body w = Ok None w' ->
    (List.length (stdin w') < List.length (stdin w))%nat.

(** [advances strict m]: [m] never runs out of fuel, and when it returns
    it has read no reply back; at least one reply when [strict]. *)
Definition advances (strict : bool) {A : Type} (m : M A) : Prop :=
  forall w,
    match m w with
    | Ok _ w' =>
        if strict then (List.length (stdin w') < List.length (stdin w))%nat
        else (List.length (stdin w') <= List.length (stdin w))%nat
    | Raise _ _ => True
    | Timeout _ => False
    end.

Definition final_world {A : Type} (o : outcome A) : world :=
  match o with
  | Ok _ w => w
  | Raise _ w => w
  | Timeout w => w
  end.

(** The world [w] once the replies down to [replies] are read and [out] is
    written. *)
Definition console (w : world) (replies : list string) (out : list event) : world :=
  {| appliances := appliances w; stdin := replies;
     stdout := stdout w ++ out; files := files w |}.


(** ** Validated input *)



(** The console of the input validation test. *)
Definition test_console : world :=
  {| appliances := []; stdin := ["-5"; "abc"; "3.5"]; stdout := []; files := ∅ |}.

(** ** Persistence *)

(** A cell the reader accepts: no longer than the field size limit. *)
Definition fits (s : string) : Prop := Z.of_nat (String.length s) <= field_limit.

(** The cells of the row [save_appliances_to_csv] writes for an appliance,
    and the text of rows written one after the other. *)
Definition cells (name : string) (watts hours : float) : list string :=
  [name; float_repr watts; float_repr hours].

Definition rows_text (rows : list (list string)) : string :=
  foldr (fun row text => writerow row +:+ text) EmptyString rows.

(** [str(x)] reads back as a float equal to [x]. *)
Definition reads_back_equal (x : float) : Prop :=
  exists y, float_of_string (float_repr x) = Some y /\ (y =? x)%float = true.

(** An appliance as [add_appliance] makes it, that the file can hold. *)
Definition storable (d : dict) : Prop :=
  exists (name : string) (watts hours : float),
    d = add_appliance name watts hours /\
    fits name /\
    fits (float_repr watts) /\ reads_back_equal watts /\
    fits (float_repr hours) /\ reads_back_equal hours.

(** The two conditions on a number of a [storable] appliance, as a
    check. *)
Definition storable_number (x : float) : bool :=
  let s := float_repr x in
  (Z.of_nat (String.length s) <=? field_limit) &&
  match float_of_string s with
  | Some y => (y =? x)%float
  | None => false
  end.

(** An appliance with household values and a name the file can hold. *)
Definition household (d : dict) : Prop :=
  exists (name : string) (watts hours : float),
    d = add_appliance name watts hours /\ fits name /\
    (watts, hours) ∈ household_grid.

(** The entries match per field: the same name, numerically equal watts
    and hours. *)
Definition same_appliance (a b : dict) : Prop :=
  exists (name : string) (watts hours watts' hours' : float),
    a = add_appliance name watts hours /\
    b = add_appliance name watts' hours' /\
    (watts' =? watts)%float = true /\ (hours' =? hours)%float = true.

(** ** Sample data *)

(** The appliances of the persistence test, as the program holds them. *)
Definition kitchen : list dict :=
  [add_appliance "Lamp" 60 5; add_appliance "TV" 120 4].

Definition kitchen_world (replies : list string) : world :=
  {| appliances := kitchen; stdin := replies; stdout := []; files := ∅ |}.


(** A file whose second row has a non-numeric [watts] cell. *)
Definition bad_file : string :=
  "name,watts,hours_per_day" +:+ nl +:+ "Lamp,60,5" +:+ nl +:+ "TV,abc,4" +:+ nl.

(** A file whose only row has an empty name, negative watts and no hours. *)
Definition unchecked_file : string :=
  "name,watts,hours_per_day" +:+ nl +:+ ",-5,0" +:+ nl.
(** ** Validated integers *)





(** ** Listings *)

(** The value an appliance holds in a column; [None] stands for a column
    that is missing. *)
Definition column (app : dict) (k : string) : value :=
  default VNone (items app !! k).

(** The line of the listing of [view_appliances] for the appliance at
    index [i]. *)
Definition view_line (i : nat) (app : dict) : event :=
  Print [Num (Z.of_nat i + 1); Lit ". "; Val (column app "name"); Lit " || ";
         Val (column app "watts"); Lit "W || ";
         Val (column app "hours_per_day"); Lit "h/day"].

(** ** What a loaded list holds *)

(** The two numeric columns hold floats. *)
Definition numeric (d : dict) : Prop :=
  exists watts hours : float,
    items d !! "watts" = Some (VFloat watts) /\
    items d !! "hours_per_day" = Some (VFloat hours).

(** The row converts: [float] accepts its two numeric cells. *)
Definition converts (row : dict) : Prop :=
  exists d, convert_row row = Return d.

(** A dict the writer refuses: it holds a key that is not one of the three
    columns. *)
Definition foreign_key (d : dict) : Prop :=
  extra d <> None \/ ~ dom (items d) ⊆ list_to_set fieldnames.

(** A file with no [hours_per_day] column, a file whose row is one cell
    short, and a file whose row has one cell too many. *)
Definition two_column_file : string :=
  "name,watts" +:+ nl +:+ "Lamp,60" +:+ nl.

Definition short_row_file : string :=
  "name,watts,hours_per_day" +:+ nl +:+ "Lamp,60" +:+ nl.

Definition long_row_file : string :=
  "name,watts,hours_per_day" +:+ nl +:+ "TV,120,4" +:+ nl +:+ "Lamp,60,5,x" +:+ nl.

(** ** What a session can do *)


(** [runs fs R m Q]: started with the files [fs] and a list that satisfies
    [R], the command [m] leaves the files as they are; a value it returns
    and the list it leaves satisfy [Q], and the one exception it can raise
    is the [EOFError] of a console with no reply left. *)
Definition runs {A : Type} (fs : gmap string string) (R : list dict -> Prop)
    (m : M A) (Q : A -> list dict -> Prop) : Prop :=
  forall w, files w = fs -> R (appliances w) ->
    match m w with
    | Ok a w' => files w' = fs /\ Q a (appliances w')
    | Raise e w' => e = EOFError /\ files w' = fs
    | Timeout _ => True
    end.




(** A session that starts with a file [appliances.csv] holding [text]. *)
Definition session_with_file (text : string) (replies : list string) : world :=
  {| appliances := []; stdin := replies; stdout := [];
     files := {[ "appliances.csv" := text ]} |}.

(** ** Reports *)








(** * Proofs *)

(** * The console monad *)

Lemma bind_unfold {A B : Type} (m : M A) (f : A -> M B) (w : world) :
  (m ≫= f) w =
  match m w with
  | Ok a w' => f a w'
  | Raise e w' => Raise e w'
  | Timeout w' => Timeout w'
  end.
Proof. reflexivity. Qed.

Lemma console_console (w : world) r1 o1 r2 o2 :
  console (console w r1 o1) r2 o2 = console w r2 (o1 ++ o2).
Proof. unfold console; simpl. by rewrite <- (assoc_L (++)). Qed.

Lemma console_id (w : world) : console w (stdin w) [] = w.
Proof. destruct w; unfold console; simpl. by rewrite (right_id_L [] (++)). Qed.


Lemma stdin_console (w : world) replies out :
  stdin (console w replies out) = replies.
Proof. reflexivity. Qed.

Lemma print_run (line : list frag) (w : world) :
  print line w = Ok tt (console w (stdin w) [Print line]).
Proof. reflexivity. Qed.

Lemma input_run (prompt : list frag) (w : world) reply replies :
  stdin w = reply :: replies ->
  input prompt w = Ok reply (console w replies [Prompt prompt]).
Proof. intros Hin. unfold input. rewrite Hin. reflexivity. Qed.


(** Fuel beyond the number of replies left changes nothing, for a body
    that reads a reply on every round. *)
Lemma while_true_fuel {A : Type} (body : M (option A)) :
  consumes body ->
  forall (n m : nat) (w : world),
    (List.length (stdin w) < n)%nat -> (List.length (stdin w) < m)%nat ->
    while_true n body w = while_true m body w.
Proof.
  intros Hc n. induction n as [|n IH]; intros m w Hn Hm; [lia|].
  destruct m as [|m]; [lia|]. simpl. rewrite !bind_unfold.
  destruct (body w) as [[a|] w'| |] eqn:Hb; try reflexivity.
  apply Hc in Hb. apply IH; lia.
Qed.

Lemma loop_unfold {A : Type} (body : M (option A)) (w : world) :
  consumes body ->
  loop body w =
  match body w with
  | Ok (Some a) w' => Ok a w'
  | Ok None w' => loop body w'
  | Raise e w' => Raise e w'
  | Timeout w' => Timeout w'
  end.
Proof.
  intros Hc. unfold loop at 1. simpl. rewrite bind_unfold.
  destruct (body w) as [[a|] w'| |] eqn:Hb; try reflexivity.
  unfold loop. pose proof (Hc _ _ Hb). apply while_true_fuel; [done|lia..].
Qed.
(** * Energy calculator *)

(** C5: the three calculator functions compute exactly the stated
    formulas, whatever the numbers, and on the three sample inputs they
    give [0.2], [6.0] and [3.0]. *)
Theorem calculator_formulas :
  (forall (T : Type) (N : PyNumber T) (watts hours_per_day : T),
      calculate_daily_kwh watts hours_per_day
      = py_truediv (py_mul watts hours_per_day) (py_int 1000)) /\
  (forall (T : Type) (N : PyNumber T) (daily_kwh : T),
      calculate_monthly_kwh daily_kwh = py_mul daily_kwh (py_int 30)) /\
  (forall (T : Type) (N : PyNumber T) (kwh price_per_kwh : T),
      calculate_cost kwh price_per_kwh = py_mul kwh price_per_kwh) /\
  calculate_daily_kwh 100%float 2%float = 0.2%float /\
  calculate_monthly_kwh 0.2%float = 6%float /\
  calculate_cost 6%float 0.5%float = 3%float.
Proof. repeat split; vm_compute; reflexivity. Qed.





(** With [watts = 1e308] and [hours = 1] the product times [30] overflows
    while the two-step computation stays finite. *)
Lemma overflow_values :
  two_step 1e308%float 1%float = 2.9999999999999996e306%float /\
  single_formula 1e308%float 1%float = infinity.
Proof. split; vm_compute; reflexivity. Qed.



(** * Validated input *)









(** * Properties of the appliance list kept by the session *)

Section Keeps.
Context (P : list dict -> Prop).

Lemma keeps_ret {A : Type} (a : A) (Q : A -> Prop) :
  Q a -> keeps (on_list P) (mret a) Q.
Proof. intros Ha w Hw. by split. Qed.

Lemma keeps_bind {A B : Type} (m : M A) (f : A -> M B) (Q : A -> Prop) (R : B -> Prop) :
  keeps (on_list P) m Q ->
  (forall a, Q a -> keeps (on_list P) (f a) R) ->
  keeps (on_list P) (m ≫= f) R.
Proof.
  intros Hm Hf w Hw. rewrite bind_unfold. specialize (Hm w Hw).
  destruct (m w) as [a w'|e w'|w']; [|done..].
  destruct Hm as [Ha Hw']. by apply Hf.
Qed.

Lemma keeps_weaken {A : Type} (m : M A) (Q Q' : A -> Prop) :
  keeps (on_list P) m Q -> (forall a, Q a -> Q' a) -> keeps (on_list P) m Q'.
Proof.
  intros Hm HQ w Hw. specialize (Hm w Hw).
  destruct (m w); [|done..]. destruct Hm. split; auto.
Qed.

Lemma keeps_any {A : Type} (m : M A) (Q : A -> Prop) :
  keeps (on_list P) m Q -> keeps (on_list P) m (fun _ => True).
Proof. intros Hm. by apply (keeps_weaken m Q). Qed.

Lemma keeps_raise {A : Type} (e : exn) (Q : A -> Prop) :
  keeps (on_list P) (raise e) Q.
Proof. by intros w Hw. Qed.

Lemma keeps_lift {A : Type} (r : result A) :
  keeps (on_list P) (lift r) (fun _ => True).
Proof. destruct r; [by apply keeps_ret|apply keeps_raise]. Qed.

Lemma keeps_print (line : list frag) :
  keeps (on_list P) (print line) (fun _ => True).
Proof. by intros w Hw. Qed.

Lemma keeps_input (prompt : list frag) :
  keeps (on_list P) (input prompt) (fun _ => True).
Proof. intros w Hw. unfold input. by destruct (stdin w). Qed.

Lemma keeps_get_appliances :
  keeps (on_list P) get_appliances P.
Proof. by intros w Hw. Qed.

Lemma keeps_set_appliances (l : list dict) :
  P l -> keeps (on_list P) (set_appliances l) (fun _ => True).
Proof. by intros Hl w Hw. Qed.

Lemma keeps_getitem (d : dict) (k : string) :
  keeps (on_list P) (getitem d k) (fun _ => True).
Proof. unfold getitem. destruct (items d !! k); [by apply keeps_ret|apply keeps_raise]. Qed.

Lemma keeps_as_floats (a b : value) :
  keeps (on_list P) (as_floats a b) (fun _ => True).
Proof. destruct a, b; first [apply keeps_raise | by apply keeps_ret]. Qed.

Lemma keeps_appliance_at (i : Z) :
  keeps (on_list P) (appliance_at i) (fun _ => True).
Proof.
  eapply keeps_bind; [apply keeps_get_appliances|]. intros apps _.
  destruct (_ ≫= _); [by apply keeps_ret|apply keeps_raise].
Qed.

Lemma keeps_while_true {A : Type} (body : M (option A)) (Q : A -> Prop) (fuel : nat) :
  keeps (on_list P) body (fun r => from_option Q True r) ->
  keeps (on_list P) (while_true fuel body) Q.
Proof.
  intros Hb. induction fuel as [|fuel IH]; [by intros w Hw|].
  simpl. eapply keeps_bind; [exact Hb|].
  intros [a|] Ha; [by apply keeps_ret|exact IH].
Qed.

Lemma keeps_loop {A : Type} (body : M (option A)) (Q : A -> Prop) :
  keeps (on_list P) body (fun r => from_option Q True r) ->
  keeps (on_list P) (loop body) Q.
Proof. intros Hb w Hw. by apply (keeps_while_true body Q _ Hb w). Qed.

Lemma keeps_for_each {A : Type} (f : A -> M unit) (l : list A) :
  (forall x, keeps (on_list P) (f x) (fun _ => True)) ->
  keeps (on_list P) (for_each f l) (fun _ => True).
Proof.
  intros Hf. induction l as [|x l IH]; [by apply keeps_ret|].
  simpl. eapply keeps_bind; [apply Hf|]. intros _ _. exact IH.
Qed.

Lemma keeps_foldl {A B : Type} (step : M B -> A -> M B) (l : list A) : forall (init : M B),
  keeps (on_list P) init (fun _ => True) ->
  (forall acc x, keeps (on_list P) acc (fun _ => True) ->
                 keeps (on_list P) (step acc x) (fun _ => True)) ->
  keeps (on_list P) (foldl step init l) (fun _ => True).
Proof.
  induction l as [|x l IH]; intros init Hinit Hstep; [done|].
  simpl. apply IH; [|done]. by apply Hstep.
Qed.

Lemma keeps_get_positive_float (prompt : list frag) :
  keeps (on_list P) (get_positive_float prompt) (fun v => (0 <? v)%float = true).
Proof.
  apply keeps_loop. eapply keeps_bind; [apply keeps_input|]. intros reply _.
  destruct (float_of_string reply) as [v|].
  - destruct (0 <? v)%float eqn:Hpos; [by apply keeps_ret|].
    eapply keeps_bind; [apply keeps_print|]. intros _ _. by apply keeps_ret.
  - eapply keeps_bind; [apply keeps_print|]. intros _ _. by apply keeps_ret.
Qed.

Lemma keeps_get_int (prompt : list frag) (lo hi : option Z) :
  keeps (on_list P) (get_int prompt lo hi) (fun _ => True).
Proof.
  apply keeps_loop. eapply keeps_bind; [apply keeps_input|]. intros reply _.
  destruct (int_of_string reply) as [v|].
  - destruct (_ || _); [|by apply keeps_ret].
    eapply keeps_bind; [apply keeps_print|]. intros _ _. by apply keeps_ret.
  - eapply keeps_bind; [apply keeps_print|]. intros _ _. by apply keeps_ret.
Qed.

Lemma keeps_show_menu : keeps (on_list P) show_menu (fun _ => True).
Proof.
  unfold show_menu.
  repeat (eapply keeps_bind; [apply keeps_print|]; intros _ _).
  apply keeps_input.
Qed.

End Keeps.

Create HintDb keeps.
#[export] Hint Resolve keeps_print keeps_input keeps_getitem keeps_as_floats
  keeps_appliance_at keeps_get_int keeps_show_menu keeps_get_appliances
  keeps_get_positive_float keeps_lift keeps_raise : keeps.

(** Walks down a program: binds, branches and returns. *)
Ltac keeps_step :=
  lazymatch goal with
  | |- keeps _ (mret _) _ => by apply keeps_ret
  | |- keeps _ (_ ≫= _) _ =>
      eapply keeps_bind;
      [first [solve [eauto with keeps]
             |apply keeps_for_each; intros ?; solve [repeat keeps_step]]|];
      intros ? ?
  | |- keeps _ (if ?b then _ else _) _ => destruct b eqn:?
  | |- keeps _ (let '(_, _) := ?x in _) _ => destruct x
  | |- keeps _ (for_each _ _) _ => apply keeps_for_each; intros ?
  | |- keeps _ _ (fun _ => True) => solve [eapply keeps_any; eauto with keeps]
  end.

Lemma keeps_view_appliances (P : list dict -> Prop) :
  keeps (on_list P) view_appliances (fun _ => True).
Proof.
  unfold view_appliances. repeat keeps_step.
Qed.

(** The calculation of one appliance, of all appliances and the listing
    keep any property of the list: they never write to it. *)
Lemma keeps_read_only (P : list dict -> Prop) (option : string) :
  option = "2" \/ option = "3" \/ option = "5" ->
  keeps (on_list P) (main_dispatch option) (fun _ => True).
Proof.
  intros [-> | [-> | ->]]; unfold main_dispatch;
    repeat (rewrite bool_decide_eq_false_2 by discriminate);
    rewrite bool_decide_eq_true_2 by reflexivity.
  - repeat keeps_step.
  - repeat keeps_step.
    eapply keeps_bind.
    { apply keeps_foldl; [by apply keeps_ret|].
      intros acc app Hacc. eapply keeps_bind; [exact Hacc|]. intros ? _.
      repeat keeps_step. }
    intros ? _. repeat keeps_step.
  - eapply keeps_bind; [apply keeps_view_appliances|]. intros ? _. repeat keeps_step.
Qed.

(** ** The invariant of the data model *)

Lemma valid_add_appliance name watts hours :
  name <> EmptyString -> (0 <? watts)%float = true -> (0 <? hours)%float = true ->
  valid (add_appliance name watts hours).
Proof. intros Hn Hw Hh. exists name, watts, hours. by repeat split. Qed.

Lemma valid_set_name d name :
  name <> EmptyString -> valid d -> valid (dict_set "name" (VStr name) d).
Proof.
  intros Hn (n & w & h & _ & _ & Hw & Hwp & Hh & Hhp). exists name, w, h.
  unfold dict_set; simpl. rewrite lookup_insert_eq, !lookup_insert_ne by done. done.
Qed.

Lemma valid_set_watts d watts :
  (0 <? watts)%float = true -> valid d -> valid (dict_set "watts" (VFloat watts) d).
Proof.
  intros Hp (n & w & h & Hn & Hne & _ & _ & Hh & Hhp). exists n, watts, h.
  unfold dict_set; simpl. rewrite lookup_insert_eq, !lookup_insert_ne by done. done.
Qed.

Lemma valid_set_hours d hours :
  (0 <? hours)%float = true -> valid d -> valid (dict_set "hours_per_day" (VFloat hours) d).
Proof.
  intros Hp (n & w & h & Hn & Hne & Hw & Hwp & _ & _). exists n, w, hours.
  unfold dict_set; simpl. rewrite lookup_insert_eq, !lookup_insert_ne by done. done.
Qed.

Lemma keeps_setitem_at (i : Z) (k : string) (v : value) :
  (forall d, valid d -> valid (dict_set k v d)) ->
  keeps (on_list (Forall valid)) (setitem_at i k v) (fun _ => True).
Proof.
  intros Hset. eapply keeps_bind; [apply keeps_get_appliances|]. intros apps Happs.
  destruct (position i (List.length apps)) as [n|]; [|apply keeps_raise].
  apply keeps_set_appliances. apply Forall_alter; [done|]. intros d _. apply Hset.
Qed.

Lemma keeps_pop (i : Z) :
  keeps (on_list (Forall valid)) (pop i) (fun _ => True).
Proof.
  eapply keeps_bind; [apply keeps_get_appliances|]. intros apps Happs.
  destruct (position i (List.length apps)) as [n|]; [|apply keeps_raise].
  apply keeps_set_appliances. by apply Forall_delete.
Qed.

Lemma keeps_append (app : dict) :
  valid app -> keeps (on_list (Forall valid)) (append app) (fun _ => True).
Proof.
  intros Happ. eapply keeps_bind; [apply keeps_get_appliances|]. intros apps Happs.
  apply keeps_set_appliances. apply Forall_app. split; [done|]. by constructor.
Qed.

Lemma is_empty_false (s : string) : is_empty s = false -> s <> EmptyString.
Proof. by destruct s. Qed.

Lemma keeps_edit_listing (P : list dict -> Prop) (apps : list dict) :
  keeps (on_list P) (edit_listing apps) (fun _ => True).
Proof. unfold edit_listing. repeat keeps_step. Qed.

Lemma keeps_edit_sub_action (choice : Z) (app : dict) (sub_option : string) :
  keeps (on_list (Forall valid)) (edit_sub_action choice app sub_option) (fun _ => True).
Proof.
  unfold edit_sub_action. repeat keeps_step.
  - eapply keeps_bind; [|intros ? _; repeat keeps_step].
    destruct (negb _) eqn:Hne; [|eauto with keeps].
    eapply keeps_bind; [|intros ? _; eauto with keeps].
    apply keeps_setitem_at. intros d. apply valid_set_name.
    apply is_empty_false. by destruct (is_empty _).
  - eapply keeps_bind; [|intros ? _; repeat keeps_step].
    apply keeps_setitem_at. intros d. by apply valid_set_watts.
  - eapply keeps_bind; [|intros ? _; repeat keeps_step].
    apply keeps_setitem_at. intros d. by apply valid_set_hours.
  - eapply keeps_bind; [|intros ? _; repeat keeps_step].
    destruct (bool_decide (lower _ = _)); [|eauto with keeps].
    eapply keeps_bind; [apply keeps_pop|]. intros ? _. eauto with keeps.
Qed.

Lemma keeps_edit_appliance_body :
  keeps (on_list (Forall valid)) edit_appliance_body (fun _ => True).
Proof.
  unfold edit_appliance_body.
  do 2 keeps_step.
  eapply keeps_bind; [apply keeps_edit_listing|]. intros ? _.
  repeat keeps_step. apply keeps_edit_sub_action.
Qed.

Lemma keeps_edit_appliance :
  keeps (on_list (Forall valid)) edit_appliance (fun _ => True).
Proof.
  unfold edit_appliance. repeat keeps_step.
  apply keeps_loop. eapply keeps_weaken; [apply keeps_edit_appliance_body|]. by intros [].
Qed.

Lemma keeps_main_dispatch (option : string) :
  keeps (on_list (Forall valid)) (main_dispatch option) (fun _ => True).
Proof.
  unfold main_dispatch.
  destruct (bool_decide (option = "1")) eqn:H1.
  { repeat keeps_step.
    eapply keeps_bind; [|intros ? _; repeat keeps_step].
    apply keeps_append, valid_add_appliance; [by apply is_empty_false|done..]. }
  destruct (bool_decide (option = "2")) eqn:H2.
  { apply bool_decide_eq_true in H2 as ->.
    generalize (keeps_read_only (Forall valid) "2"). unfold main_dispatch. simpl. auto. }
  destruct (bool_decide (option = "3")) eqn:H3.
  { apply bool_decide_eq_true in H3 as ->.
    generalize (keeps_read_only (Forall valid) "3"). unfold main_dispatch. simpl. auto. }
  destruct (bool_decide (option = "4")) eqn:H4.
  { eapply keeps_bind; [apply keeps_edit_appliance|]. intros ? _. repeat keeps_step. }
  destruct (bool_decide (option = "5")) eqn:H5.
  { eapply keeps_bind; [apply keeps_view_appliances|]. intros ? _. repeat keeps_step. }
  repeat keeps_step.
Qed.

Lemma keeps_main_body :
  keeps (on_list (Forall valid)) main_body (fun _ => True).
Proof.
  unfold main_body. eapply keeps_bind; [apply keeps_show_menu|]. intros reply _.
  apply keeps_main_dispatch.
Qed.
(** * The edit flow *)

Lemma kitchen_has_columns : Forall has_columns kitchen.
Proof. repeat constructor; by eexists. Qed.



Lemma get_appliances_run (w : world) : get_appliances w = Ok (appliances w) w.
Proof. reflexivity. Qed.

Lemma getitem_run (d : dict) (k : string) (v : value) (w : world) :
  items d !! k = Some v -> getitem d k w = Ok v w.
Proof. intros Hk. unfold getitem. by rewrite Hk. Qed.














(** * Strings *)

Lemma app_cons (c : ascii) (s t : string) : String c s +:+ t = String c (s +:+ t).
Proof. reflexivity. Qed.

Lemma app_nil_l (t : string) : EmptyString +:+ t = t.
Proof. reflexivity. Qed.

Lemma app_nil_r (s : string) : s +:+ EmptyString = s.
Proof. induction s as [|c s IH]; [done|]. by rewrite app_cons, IH. Qed.

Lemma app_assoc (s t u : string) : (s +:+ t) +:+ u = s +:+ (t +:+ u).
Proof. induction s as [|c s IH]; [done|]. by rewrite !app_cons, IH. Qed.

Lemma rev_app_rev_app (s t u : string) :
  String.rev_app (String.rev_app s t) u = String.rev_app t (s +:+ u).
Proof.
  revert t u. induction s as [|c s IH]; intros t u; simpl; [done|].
  by rewrite IH.
Qed.

Lemma rev_rev_app (s : string) : String.rev (String.rev_app s EmptyString) = s.
Proof. unfold String.rev. rewrite rev_app_rev_app. simpl. apply app_nil_r. Qed.

(** * The reader on what the writer wrote *)

Lemma special_false (c : ascii) :
  special c = false -> c <> COMMA /\ c <> DQUOTE /\ c <> CR /\ c <> LF.
Proof.
  unfold special. intros H.
  repeat (apply orb_false_elim in H as [H ?]).
  repeat split; by apply (bool_decide_eq_false _).
Qed.

Lemma ends_line_plain (c : ascii) (s : string) :
  c <> CR -> c <> LF -> ends_line c s = false.
Proof.
  intros Hcr Hlf. unfold ends_line.
  by rewrite (bool_decide_eq_false_2 _ Hcr), (bool_decide_eq_false_2 _ Hlf).
Qed.

Lemma splitlines_nonempty (s : string) : s <> EmptyString -> splitlines s <> [].
Proof.
  destruct s as [|c s]; [done|]. intros _. simpl.
  destruct (ends_line c s); [done|]. by destruct (splitlines s).
Qed.

(** A character inside a line is fed to the reader before the rest of the
    text. *)
Lemma reader_cons_inline (c : ascii) (s : string) (r : reader) :
  ends_line c s = false -> s <> EmptyString ->
  reader_rows (splitlines (String c s)) r =
  match parse_process_char (Char c) r with
  | Some r' => reader_rows (splitlines s) r'
  | None => ([], Some CsvError)
  end.
Proof.
  intros Hends Hs. simpl splitlines. rewrite Hends.
  destruct (splitlines s) as [|l ls] eqn:Hl; [by apply splitlines_nonempty in Hs|].
  simpl. by destruct (parse_process_char (Char c) r).
Qed.

(** The character that ends a line is followed by the end of the line. *)
Lemma reader_cons_eol (c : ascii) (s : string) (r : reader) :
  ends_line c s = true ->
  reader_rows (splitlines (String c s)) r =
  match parse_process_char (Char c) r ≫= parse_process_char EOL with
  | None => ([], Some CsvError)
  | Some r' =>
      if bool_decide (pstate r' = START_RECORD) then
        let '(rows, err) := reader_rows (splitlines s) parse_reset in
        (reverse (fields r') :: rows, err)
      else reader_rows (splitlines s) r'
  end.
Proof.
  intros Hends. simpl splitlines. rewrite Hends. simpl.
  by destruct (parse_process_char (Char c) r).
Qed.

(** Inside a quoted field the end of a line changes nothing. *)
Lemma reader_cons_quoted (c : ascii) (s : string) (r r' : reader) :
  s <> EmptyString ->
  parse_process_char (Char c) r = Some r' ->
  pstate r' = IN_QUOTED_FIELD ->
  reader_rows (splitlines (String c s)) r = reader_rows (splitlines s) r'.
Proof.
  intros Hs Hstep Hst. destruct (ends_line c s) eqn:Hends.
  - rewrite (reader_cons_eol _ _ _ Hends), Hstep. simpl.
    unfold parse_process_char at 1. rewrite Hst. simpl.
    rewrite bool_decide_eq_false_2; [done|]. by rewrite Hst.
  - by rewrite (reader_cons_inline _ _ _ Hends Hs), Hstep.
Qed.

Lemma app_nonempty_r (s t : string) : t <> EmptyString -> s +:+ t <> EmptyString.
Proof. intros Ht. by destruct s. Qed.

Lemma quoted_tail_nonempty (s : string) : quoted_tail s <> EmptyString.
Proof. destruct s as [|c s]; [done|]. simpl. by destruct (bool_decide _). Qed.

(** The transitions of the reader used below. *)
Lemma step_open_quote (st : parse_state) fs :
  st = START_RECORD \/ st = START_FIELD ->
  parse_process_char (Char DQUOTE) (Reader st fs EmptyString 0) =
  Some (Reader IN_QUOTED_FIELD fs EmptyString 0).
Proof. by intros [-> | ->]. Qed.

Lemma step_close_quote fs acc n :
  parse_process_char (Char DQUOTE) (Reader IN_QUOTED_FIELD fs acc n) =
  Some (Reader QUOTE_IN_QUOTED_FIELD fs acc n).
Proof. reflexivity. Qed.

Lemma step_doubled_quote fs acc n :
  n < field_limit ->
  parse_process_char (Char DQUOTE) (Reader QUOTE_IN_QUOTED_FIELD fs acc n) =
  Some (Reader IN_QUOTED_FIELD fs (String DQUOTE acc) (n + 1)).
Proof.
  intros Hn. unfold parse_process_char. simpl pstate. cbv iota.
  rewrite bool_decide_eq_true_2 by done.
  unfold parse_add_char. simpl field_len.
  by replace (field_limit <=? n) with false by (symmetry; apply Z.leb_gt; lia).
Qed.

Lemma step_quoted_char (c : ascii) fs acc n :
  c <> DQUOTE -> n < field_limit ->
  parse_process_char (Char c) (Reader IN_QUOTED_FIELD fs acc n) =
  Some (Reader IN_QUOTED_FIELD fs (String c acc) (n + 1)).
Proof.
  intros Hq Hn. unfold parse_process_char. simpl pstate. cbv iota.
  rewrite (bool_decide_eq_false_2 _ Hq).
  unfold parse_add_char. simpl field_len.
  by replace (field_limit <=? n) with false by (symmetry; apply Z.leb_gt; lia).
Qed.

Lemma step_plain_char (st : parse_state) (c : ascii) fs acc n :
  st = START_RECORD \/ st = START_FIELD \/ st = IN_FIELD ->
  special c = false -> n < field_limit ->
  parse_process_char (Char c) (Reader st fs acc n) =
  Some (Reader IN_FIELD fs (String c acc) (n + 1)).
Proof.
  intros Hst Hc Hn. apply special_false in Hc as (Hcomma & Hquote & Hcr & Hlf).
  unfold parse_add_char.
  destruct Hst as [-> | [-> | ->]]; unfold parse_process_char, start_field; simpl pstate;
    cbv iota; unfold is_newline;
    rewrite ?(bool_decide_eq_false_2 _ Hcr), ?(bool_decide_eq_false_2 _ Hlf),
      ?(bool_decide_eq_false_2 _ Hcomma), ?(bool_decide_eq_false_2 _ Hquote);
    simpl orb; cbv iota; unfold parse_add_char; simpl field_len;
    by replace (field_limit <=? n) with false by (symmetry; apply Z.leb_gt; lia).
Qed.

(** A comma ends the current field, whatever its kind. *)
Lemma step_comma (st : parse_state) fs acc n :
  st <> IN_QUOTED_FIELD -> st <> EAT_CRNL ->
  parse_process_char (Char COMMA) (Reader st fs acc n) =
  Some (Reader START_FIELD (String.rev acc :: fs) EmptyString 0).
Proof. by destruct st. Qed.

(** A carriage return ends the current field and the record. *)
Lemma step_cr (st : parse_state) fs acc n :
  st = START_FIELD \/ st = IN_FIELD \/ st = QUOTE_IN_QUOTED_FIELD ->
  parse_process_char (Char CR) (Reader st fs acc n) =
  Some (Reader EAT_CRNL (String.rev acc :: fs) EmptyString 0).
Proof. by intros [-> | [-> | ->]]. Qed.

Lemma quoted_run (f : string) : forall (fs : list string) (acc : string) (n : Z) (tail : string),
  tail <> EmptyString ->
  0 <= n -> n + Z.of_nat (String.length f) <= field_limit ->
  reader_rows (splitlines (quoted_tail f +:+ tail)) (Reader IN_QUOTED_FIELD fs acc n) =
  reader_rows (splitlines tail)
    (Reader QUOTE_IN_QUOTED_FIELD fs (String.rev_app f acc) (n + Z.of_nat (String.length f))).
Proof.
  induction f as [|c f IH]; intros fs acc n tail Htail Hn Hlen.
  - simpl quoted_tail. unfold str1. rewrite app_cons, app_nil_l.
    rewrite reader_cons_inline; [|by apply ends_line_plain|done].
    rewrite step_close_quote. simpl. by rewrite Z.add_0_r.
  - simpl quoted_tail. simpl String.length in *.
    assert (quoted_tail f +:+ tail <> EmptyString) as Hne
      by apply app_nonempty_r, Htail.
    case_bool_decide as Hq.
    + subst c. rewrite !app_cons.
      rewrite reader_cons_inline; [|by apply ends_line_plain|done].
      rewrite step_close_quote.
      rewrite reader_cons_inline; [|by apply ends_line_plain|exact Hne].
      rewrite step_doubled_quote by lia.
      rewrite IH; [|done|lia..]. simpl String.rev_app. do 2 f_equal. lia.
    + rewrite app_cons.
      erewrite reader_cons_quoted; [|exact Hne|by apply step_quoted_char; [|lia]|done].
      rewrite IH; [|done|lia..]. simpl String.rev_app. do 2 f_equal. lia.
Qed.

Lemma unquoted_run (f : string) : forall (fs : list string) (acc : string) (n : Z) (tail : string),
  tail <> EmptyString ->
  needs_quotes f = false ->
  0 <= n -> n + Z.of_nat (String.length f) <= field_limit ->
  reader_rows (splitlines (f +:+ tail)) (Reader IN_FIELD fs acc n) =
  reader_rows (splitlines tail)
    (Reader IN_FIELD fs (String.rev_app f acc) (n + Z.of_nat (String.length f))).
Proof.
  induction f as [|c f IH]; intros fs acc n tail Htail Hplain Hn Hlen.
  - simpl. by rewrite app_nil_l, Z.add_0_r.
  - simpl in Hplain. apply orb_false_elim in Hplain as [Hc Hplain].
    pose proof (special_false _ Hc) as (Hcomma & Hquote & Hcr & Hlf).
    simpl String.length in *.
    rewrite app_cons.
    rewrite reader_cons_inline;
      [|by apply ends_line_plain|by apply app_nonempty_r].
    rewrite (step_plain_char IN_FIELD) by (auto; lia).
    rewrite IH; [|done..|lia|lia]. simpl String.rev_app. do 2 f_equal. lia.
Qed.

(** The reader after a field written by [write_field]: the field is in
    its buffer, in a state a comma or a line end may follow. *)
Lemma field_run (st : parse_state) (fs : list string) (f tail : string) :
  st = START_RECORD \/ st = START_FIELD ->
  fits f -> tail <> EmptyString ->
  exists r,
    reader_rows (splitlines (write_field f +:+ tail)) (Reader st fs EmptyString 0) =
    reader_rows (splitlines tail) r /\
    fields r = fs /\ String.rev (field r) = f /\
    (pstate r = IN_FIELD \/ pstate r = QUOTE_IN_QUOTED_FIELD \/
     (pstate r = st /\ f = EmptyString)).
Proof.
  intros Hst Hfits Htail. unfold fits in Hfits. unfold write_field.
  destruct (needs_quotes f) eqn:Hq.
  - eexists. split; [|split; [|split]].
    + rewrite app_cons.
      rewrite reader_cons_inline;
        [|by apply ends_line_plain|by apply app_nonempty_r].
      rewrite (step_open_quote st) by done.
      rewrite quoted_run; [reflexivity|done|lia..].
    + reflexivity.
    + apply rev_rev_app.
    + simpl. auto.
  - destruct f as [|c f].
    + eexists. split; [by rewrite app_nil_l|]. simpl. repeat split; auto.
    + simpl in Hq. apply orb_false_elim in Hq as [Hc Hq].
      pose proof (special_false _ Hc) as (Hcomma & Hquote & Hcr & Hlf).
      simpl String.length in Hfits.
      eexists. split; [|split; [|split]].
      * rewrite app_cons.
        rewrite reader_cons_inline;
          [|by apply ends_line_plain|by apply app_nonempty_r].
        rewrite (step_plain_char st) by (unfold field_limit; intuition lia).
        rewrite unquoted_run; [reflexivity|done..|lia|lia].
      * reflexivity.
      * apply (rev_rev_app (String c f)).
      * simpl. auto.
Qed.

Lemma field_comma (st : parse_state) (fs : list string) (f tail : string) :
  st = START_RECORD \/ st = START_FIELD ->
  fits f -> tail <> EmptyString ->
  reader_rows (splitlines (write_field f +:+ String COMMA tail)) (Reader st fs EmptyString 0) =
  reader_rows (splitlines tail) (Reader START_FIELD (f :: fs) EmptyString 0).
Proof.
  intros Hst Hfits Htail.
  destruct (field_run st fs f (String COMMA tail) Hst Hfits) as (r & -> & Hfs & Hf & Hr);
    [done|].
  rewrite reader_cons_inline; [|by apply ends_line_plain|done].
  destruct r as [st' fs' acc n]. simpl in *. subst fs' f.
  rewrite step_comma; [done|..];
    destruct Hst as [-> | ->], Hr as [-> | [-> | [-> _]]]; done.
Qed.

Lemma crlf_run (r : reader) (rest : string) :
  pstate r = START_FIELD \/ pstate r = IN_FIELD \/ pstate r = QUOTE_IN_QUOTED_FIELD ->
  reader_rows (splitlines (CRLF +:+ rest)) r =
  let '(rows, err) := reader_rows (splitlines rest) parse_reset in
  (reverse (String.rev (field r) :: fields r) :: rows, err).
Proof.
  intros Hst. destruct r as [st fs acc n]. simpl in Hst.
  unfold CRLF, str1. rewrite !app_cons, app_nil_l.
  rewrite reader_cons_inline; [|done..].
  rewrite step_cr by done.
  rewrite reader_cons_eol by done. reflexivity.
Qed.

Lemma field_crlf (st : parse_state) (fs : list string) (f rest : string) :
  st = START_FIELD \/ (st = START_RECORD /\ f <> EmptyString) ->
  fits f ->
  reader_rows (splitlines (write_field f +:+ CRLF +:+ rest)) (Reader st fs EmptyString 0) =
  let '(rows, err) := reader_rows (splitlines rest) parse_reset in
  (reverse (f :: fs) :: rows, err).
Proof.
  intros Hst Hfits.
  destruct (field_run st fs f (CRLF +:+ rest)) as (r & -> & Hfs & Hf & Hr);
    [destruct Hst as [-> | [-> _]]; auto|done|done|].
  rewrite crlf_run; [by rewrite Hfs, Hf|].
  destruct Hr as [Hr | [Hr | [Hr Hempty]]]; [auto..|].
  destruct Hst as [-> | [_ Hne]]; [auto|done].
Qed.

Lemma join_fields_cons (f g : string) (fs : list string) :
  join_fields (f :: g :: fs) = write_field f +:+ String COMMA (join_fields (g :: fs)).
Proof. reflexivity. Qed.

Lemma join_fields_nonempty (f : string) (fs : list string) (rest : string) :
  join_fields (f :: fs) +:+ CRLF +:+ rest <> EmptyString.
Proof. apply app_nonempty_r. done. Qed.

(** The fields of a row, from the first one on. *)
Lemma fields_run (row : list string) : forall (st : parse_state) (fs : list string) (rest : string),
  row <> [] ->
  st = START_FIELD \/ (st = START_RECORD /\ row <> [EmptyString]) ->
  Forall fits row ->
  reader_rows (splitlines (join_fields row +:+ CRLF +:+ rest)) (Reader st fs EmptyString 0) =
  let '(rows, err) := reader_rows (splitlines rest) parse_reset in
  ((reverse fs ++ row) :: rows, err).
Proof.
  induction row as [|f row IH]; intros st fs rest Hne Hst Hfits; [done|].
  inversion Hfits as [|? ? Hf Hrow]; subst.
  destruct row as [|g row].
  - simpl join_fields. rewrite field_crlf; [|destruct Hst as [-> | [-> ?]]; [auto|]|done].
    + destruct (reader_rows _ _). by rewrite reverse_cons.
    + right. split; [done|]. by intros ->.
  - rewrite join_fields_cons, app_assoc, app_cons.
    rewrite field_comma; [|destruct Hst as [-> | [-> _]]; auto|done|apply join_fields_nonempty].
    rewrite IH; [|done|auto|done].
    destruct (reader_rows _ _). by rewrite reverse_cons, <- (assoc_L (++)).
Qed.

Lemma writerow_run (row : list string) (rest : string) :
  Forall fits row ->
  reader_rows (splitlines (writerow row +:+ rest)) parse_reset =
  let '(rows, err) := reader_rows (splitlines rest) parse_reset in
  (row :: rows, err).
Proof.
  intros Hfits. unfold parse_reset.
  destruct row as [|f row].
  - change (writerow []) with CRLF.
    unfold CRLF, str1. rewrite !app_cons, app_nil_l.
    rewrite reader_cons_inline; [|done..].
    change (parse_process_char (Char CR) (Reader START_RECORD [] EmptyString 0))
      with (Some (Reader EAT_CRNL [] EmptyString 0)).
    cbv iota. rewrite reader_cons_eol by done. reflexivity.
  - destruct (decide (f :: row = [EmptyString])) as [Heq | Hne].
    + injection Heq as -> ->.
      change (writerow [EmptyString]) with (String DQUOTE (String DQUOTE CRLF)).
      rewrite !app_cons.
      rewrite reader_cons_inline; [|done..].
      rewrite (step_open_quote START_RECORD) by auto.
      rewrite reader_cons_inline; [|done..].
      rewrite step_close_quote.
      rewrite crlf_run by (simpl; auto). reflexivity.
    + assert (writerow (f :: row) = join_fields (f :: row) +:+ CRLF) as ->.
      { unfold writerow. destruct f; [|done]. by destruct row. }
      rewrite app_assoc.
      rewrite (fields_run (f :: row) START_RECORD []); [reflexivity|done|auto|done].
Qed.

Lemma csv_reader_rows_text (rows : list (list string)) :
  Forall (Forall fits) rows ->
  csv_reader (rows_text rows) = (rows, None).
Proof.
  unfold csv_reader. induction 1 as [|row rows Hrow _ IH]; [done|].
  simpl rows_text. rewrite writerow_run by done. by rewrite IH.
Qed.
(** * Save, then load *)

Ltac lookups :=
  repeat first [rewrite lookup_insert_eq | rewrite lookup_insert_ne by done].

Lemma dict_to_list_add_appliance name watts hours :
  dict_to_list (add_appliance name watts hours) = Return (cells name watts hours).
Proof.
  unfold dict_to_list, add_appliance. simpl items. simpl extra.
  rewrite bool_decide_eq_true_2.
  - rewrite bool_decide_eq_true_2 by done. simpl. unfold cells.
    by lookups.
  - rewrite !dom_insert_L. set_solver.
Qed.

Lemma write_rows_app (apps : list dict) : forall (text : string) (rows : list (list string)),
  Forall2 (fun d row => dict_to_list d = Return row) apps rows ->
  write_rows apps text = (text +:+ rows_text rows, None).
Proof.
  induction apps as [|d apps IH]; intros text rows Hrows;
    inversion Hrows as [|? row ? rows' Hd Hrest]; subst; simpl.
  - by rewrite app_nil_r.
  - rewrite Hd, (IH _ rows') by done. by rewrite app_assoc.
Qed.

Lemma fits_fieldnames : Forall fits fieldnames.
Proof. repeat constructor; unfold fits, field_limit; simpl; lia. Qed.

Lemma make_dict_cells (name rw rh : string) :
  make_dict fieldnames [name; rw; rh] =
  {| items := <["hours_per_day" := VStr rh]>
                (<["watts" := VStr rw]> (<["name" := VStr name]> ∅));
     extra := None |}.
Proof. reflexivity. Qed.

Lemma convert_row_cells (name : string) (watts hours watts' hours' : float) :
  float_of_string (float_repr watts) = Some watts' ->
  float_of_string (float_repr hours) = Some hours' ->
  convert_row (make_dict fieldnames (cells name watts hours)) =
  Return (add_appliance name watts' hours').
Proof.
  intros Hw Hh. unfold cells. rewrite make_dict_cells.
  unfold convert_row, convert_field, dict_set. simpl items.
  lookups. simpl to_float. rewrite Hw.
  simpl items. lookups. simpl to_float. rewrite Hh. unfold add_appliance. simpl extra. reflexivity.
Qed.

Lemma storable_rows (apps : list dict) :
  Forall storable apps ->
  exists (rows : list (list string)) (loaded : list dict),
    Forall2 (fun d row => dict_to_list d = Return row) apps rows /\
    Forall (Forall fits) rows /\
    filter (fun row => negb (is_blank row)) rows = rows /\
    load_rows (make_dict fieldnames <$> rows) None = Return loaded /\
    Forall2 same_appliance apps loaded.
Proof.
  induction 1 as [|d apps Hd _ IH].
  - exists [], []. by repeat split.
  - destruct IH as (rows & loaded & Hrows & Hfits & Hfilter & Hload & Hsame).
    destruct Hd as (name & watts & hours & -> & Hn & Hwf & (w' & Hw & Hweq)
                    & Hhf & (h' & Hh & Hheq)).
    exists (cells name watts hours :: rows), (add_appliance name w' h' :: loaded).
    split; [|split; [|split; [|split]]].
    + constructor; [apply dict_to_list_add_appliance|done].
    + constructor; [by repeat constructor|done].
    + rewrite filter_cons_True by done. by rewrite Hfilter.
    + rewrite fmap_cons. simpl load_rows.
      rewrite (convert_row_cells _ _ _ _ _ Hw Hh), Hload. done.
    + constructor; [|done]. by exists name, watts, hours, w', h'.
Qed.

(** What is loaded from the file the rows were written to. *)
Lemma rows_round_trip (appliances loaded : list dict) (rows : list (list string))
    (path : string) (fs : gmap string string) :
  Forall2 (fun d row => dict_to_list d = Return row) appliances rows ->
  Forall (Forall fits) rows ->
  filter (fun row => negb (is_blank row)) rows = rows ->
  load_rows (make_dict fieldnames <$> rows) None = Return loaded ->
  exists fs',
    save_appliances_to_csv appliances path fs = (fs', None) /\
    load_appliances_from_csv path fs' = Return loaded.
Proof.
  intros Hrows Hfits Hfilter Hload.
  unfold save_appliances_to_csv. rewrite (write_rows_app _ _ rows Hrows).
  eexists. split; [reflexivity|].
  unfold load_appliances_from_csv. rewrite lookup_insert_eq.
  unfold dict_reader.
  change (writerow fieldnames +:+ rows_text rows) with (rows_text (fieldnames :: rows)).
  rewrite csv_reader_rows_text by (constructor; [apply fits_fieldnames|done]).
  by rewrite Hfilter.
Qed.




(** ** Household values round-trip

    For whole watts up to 10000 and hours by quarters up to 24 the two
    conditions on the numbers hold, by evaluation. *)

Lemma storable_number_spec (x : float) :
  storable_number x = true -> fits (float_repr x) /\ reads_back_equal x.
Proof.
  unfold storable_number, fits, reads_back_equal. cbv zeta.
  intros [Hlen Hback]%andb_true_iff. split; [by apply Z.leb_le|].
  destruct (float_of_string (float_repr x)) as [y|]; [|done]. by exists y.
Qed.

Lemma household_watts_storable :
  forallb storable_number (float_steps 10000 1 1) = true.
Proof. vm_compute. reflexivity. Qed.

Lemma household_hours_storable :
  forallb storable_number (float_steps 96 0.25 0.25) = true.
Proof. vm_compute. reflexivity. Qed.

Lemma household_storable (d : dict) : household d -> storable d.
Proof.
  intros (name & watts & hours & -> & Hname & Hin).
  unfold household_grid in Hin.
  apply list_elem_of_bind in Hin as (w & Hin & Hw).
  apply list_elem_of_bind in Hin as (h & Hin & Hh).
  apply list_elem_of_singleton in Hin as [= -> ->].
  pose proof household_watts_storable as Hws. rewrite forallb_forall in Hws.
  pose proof household_hours_storable as Hhs. rewrite forallb_forall in Hhs.
  apply list_elem_of_In, Hws, storable_number_spec in Hw as [? ?].
  apply list_elem_of_In, Hhs, storable_number_spec in Hh as [? ?].
  by exists name, w, h.
Qed.

(** X19: for household values the round trip needs no assumption on the
    numbers.  A list of appliances as [add_appliance] makes them, with
    whole watts from 1 to 10000, hours by quarters from 0.25 to 24 and
    names within the field size limit, is loaded back as it was saved: the
    same length, the same names, equal watts and hours, the same order. *)
Lemma household_round_trip (appliances : list dict) (path : string)
    (fs : gmap string string) :
  Forall household appliances ->
  exists (fs' : gmap string string) (loaded : list dict),
    save_appliances_to_csv appliances path fs = (fs', None) /\
    load_appliances_from_csv path fs' = Return loaded /\
    Forall2 same_appliance appliances loaded.
Proof.
  intros Hall.
  assert (Forall storable appliances) as Hstorable
    by (eapply Forall_impl; [exact Hall|apply household_storable]).
  destruct (storable_rows _ Hstorable)
    as (rows & loaded & Hrows & Hfits & Hfilter & Hload & Hsame).
  destruct (rows_round_trip appliances loaded rows path fs Hrows Hfits Hfilter Hload)
    as (fs' & Hsave & Hloaded).
  by exists fs', loaded.
Qed.
(** * Loading *)




Lemma convert_field_other (k k' : string) (row row' : dict) :
  k <> k' -> convert_field k row = Return row' -> items row' !! k' = items row !! k'.
Proof.
  intros Hne. unfold convert_field. destruct (items row !! k) as [v|]; [|done].
  destruct (to_float v); [|done]. intros [= <-]. simpl. by rewrite lookup_insert_ne.
Qed.



Lemma load_rows_raises_first (before after : list dict) (row : dict) (err : option exn)
    (e : exn) :
  convert_row row = Raised e ->
  Forall (fun r => exists d, convert_row r = Return d) before ->
  load_rows (before ++ row :: after) err = Raised e.
Proof.
  intros Hrow. induction 1 as [|r before [d Hd] _ IH]; simpl.
  - by rewrite Hrow.
  - by rewrite Hd, IH.
Qed.




(** The load converts the numeric cells and checks nothing else: a row
    with an empty name and negative watts enters the list. *)
Lemma load_does_not_validate :
  exists d,
    load_appliances_from_csv "appliances.csv" {[ "appliances.csv" := unchecked_file ]} =
    Return [d] /\
    items d !! "name" = Some (VStr EmptyString) /\
    items d !! "watts" = Some (VFloat (-5)%float) /\
    ~ valid d.
Proof.
  eexists. split; [vm_compute; reflexivity|].
  split; [reflexivity|]. split; [reflexivity|].
  intros (name & watts & hours & Hn & Hne & _). vm_compute in Hn. congruence.
Qed.

(** * The session *)

Lemma show_menu_run (w : world) (reply : string) (rest : list string) :
  stdin w = reply :: rest ->
  exists out, show_menu w = Ok reply (console w rest out).
Proof.
  intros Hin. unfold show_menu.
  do 7 (rewrite bind_unfold, print_run, ?console_console, ?stdin_console).
  erewrite input_run; [|by rewrite stdin_console].
  rewrite console_console. by eexists.
Qed.

(** C10: the calculation for one appliance (option 2), the calculation
    for all appliances (option 3) and the listing (option 5) leave the
    appliance list as it was, whatever the replies and however the flow
    ends. *)
Theorem read_only_flows (w : world) (reply : string) (rest : list string) :
  stdin w = reply :: rest ->
  strip reply = "2" \/ strip reply = "3" \/ strip reply = "5" ->
  appliances (final_world (main_body w)) = appliances w /\
  appliances (final_world (view_appliances w)) = appliances w.
Proof.
  intros Hin Hopt. split.
  - unfold main_body. rewrite bind_unfold.
    destruct (show_menu_run w reply rest Hin) as [out ->]. cbv zeta.
    pose proof (keeps_read_only (fun l => l = appliances w) (strip reply) Hopt
                  (console w rest out) eq_refl) as H.
    destruct (main_dispatch _ _); simpl; unfold on_list in H; tauto.
  - pose proof (keeps_view_appliances (fun l => l = appliances w) w eq_refl) as H.
    destruct (view_appliances w); simpl; unfold on_list in H; tauto.
Qed.

Lemma read_only_flows_witness :
  appliances (final_world (main_body (kitchen_world ["3"; "0.5"]))) = kitchen /\
  appliances (final_world (view_appliances (kitchen_world ["3"; "0.5"]))) = kitchen.
Proof.
  apply (read_only_flows (kitchen_world ["3"; "0.5"]) "3" ["0.5"]).
  - reflexivity.
  - right. left. vm_compute. reflexivity.
Defined.

(** ** The invariant across sessions *)

Lemma positive_of_equal (x y : float) :
  (y =? x)%float = true -> (0 <? x)%float = true -> (0 <? y)%float = true.
Proof.
  rewrite !ltb_spec, eqb_spec.
  change (Prim2SF 0) with (S754_zero false).
  destruct (Prim2SF y) as [sy|sy| |sy my ey], (Prim2SF x) as [sx|sx| |sx mx ex];
    unfold SFeqb, SFltb; simpl; try done;
    repeat match goal with b : bool |- _ => destruct b end; simpl; done.
Qed.

Lemma valid_same_appliance (a b : dict) : same_appliance a b -> valid a -> valid b.
Proof.
  intros (name & watts & hours & watts' & hours' & -> & -> & Hw & Hh).
  intros (n & w & h & Hn & Hne & Hwatts & Hwp & Hhours & Hhp).
  simpl in Hn, Hwatts, Hhours.
  rewrite !lookup_insert_ne, lookup_insert_eq in Hn by done.
  rewrite lookup_insert_ne, lookup_insert_eq in Hwatts by done.
  rewrite lookup_insert_eq in Hhours. simplify_eq.
  exists n, watts', hours'.
  repeat split; try done; by eapply positive_of_equal.
Qed.

(** C1, as amended: every action of the session that puts an appliance into
    the list or changes one (add, edit of the name, the watts or the hours,
    delete) keeps the invariant, and so does any number of rounds of the
    menu, however they end; and the list loaded from a file that was saved
    from a list satisfying the invariant satisfies it. *)
Theorem session_keeps_appliances_valid :
  (forall (w : world) (fuel : nat),
      Forall valid (appliances w) ->
      Forall valid (appliances (final_world (main_body w))) /\
      Forall valid (appliances (final_world (edit_appliance w))) /\
      Forall valid (appliances (final_world (while_true fuel main_body w)))) /\
  (forall (saved loaded : list dict) (path : string) (fs fs' : gmap string string),
      Forall valid saved -> Forall storable saved ->
      save_appliances_to_csv saved path fs = (fs', None) ->
      load_appliances_from_csv path fs' = Return loaded ->
      Forall valid loaded).
Proof.
  split.
  - intros w fuel Hw. repeat split.
    + pose proof (keeps_main_body w Hw) as H. destruct (main_body w); simpl; tauto.
    + pose proof (keeps_edit_appliance w Hw) as H.
      destruct (edit_appliance w); simpl; tauto.
    + pose proof (keeps_while_true (Forall valid) main_body (fun _ => True) fuel) as H.
      specialize (H ltac:(eapply keeps_weaken; [apply keeps_main_body|by intros []]) w Hw).
      destruct (while_true fuel main_body w); simpl; tauto.
  - intros saved loaded path fs fs' Hvalid Hstorable Hsave Hload.
    destruct (storable_rows _ Hstorable)
      as (rows & loaded' & Hrows & Hfits & Hfilter & Hrows_load & Hsame).
    destruct (rows_round_trip saved loaded' rows path fs Hrows Hfits Hfilter Hrows_load)
      as (fs'' & Hsave' & Hload').
    rewrite Hsave in Hsave'. injection Hsave' as <-.
    rewrite Hload in Hload'. injection Hload' as <-.
    clear -Hvalid Hsame. induction Hsame as [|a b saved loaded Hab _ IH]; [done|].
    inversion Hvalid; subst. constructor; [by eapply valid_same_appliance|auto].
Qed.

Lemma session_keeps_appliances_valid_witness :
  let w := kitchen_world ["1"; "Fan"; "75"; "8"; "4"; "1"; "2"; "100"; "0"; "0"] in
  Forall valid (appliances (final_world (main_body w))) /\
  Forall valid (appliances (final_world (edit_appliance w))) /\
  Forall valid (appliances (final_world (while_true 3 main_body w))).
Proof.
  apply (proj1 session_keeps_appliances_valid
           (kitchen_world ["1"; "Fan"; "75"; "8"; "4"; "1"; "2"; "100"; "0"; "0"]) 3%nat).
  repeat constructor.
  - exists "Lamp", 60%float, 5%float. repeat split; try reflexivity. discriminate.
  - exists "TV", 120%float, 4%float. repeat split; try reflexivity. discriminate.
Defined.

(** * No loop runs out of fuel

    Every round of every loop reads a reply, so the fuel [loop] starts
    with is never used up: [Timeout] is not an outcome of the program. *)

Lemma advances_ret {A : Type} (a : A) : advances false (mret a).
Proof. intros w. simpl. lia. Qed.

Lemma advances_weaken {A : Type} (m : M A) : advances true m -> advances false m.
Proof. intros Hm w. specialize (Hm w). destruct (m w); [lia|done..]. Qed.

Lemma advances_raise {A : Type} (e : exn) (strict : bool) : advances strict (@raise A e).
Proof. by intros w. Qed.

Lemma advances_bind {A B : Type} (m : M A) (f : A -> M B) :
  advances false m -> (forall a, advances false (f a)) -> advances false (m ≫= f).
Proof.
  intros Hm Hf w. rewrite bind_unfold. specialize (Hm w).
  destruct (m w) as [a w'| |]; [|done..]. specialize (Hf a w').
  destruct (f a w'); [lia|done..].
Qed.

Lemma advances_bind_l {A B : Type} (m : M A) (f : A -> M B) :
  advances true m -> (forall a, advances false (f a)) -> advances true (m ≫= f).
Proof.
  intros Hm Hf w. rewrite bind_unfold. specialize (Hm w).
  destruct (m w) as [a w'| |]; [|done..]. specialize (Hf a w').
  destruct (f a w'); [lia|done..].
Qed.

Lemma advances_bind_r {A B : Type} (m : M A) (f : A -> M B) :
  advances false m -> (forall a, advances true (f a)) -> advances true (m ≫= f).
Proof.
  intros Hm Hf w. rewrite bind_unfold. specialize (Hm w).
  destruct (m w) as [a w'| |]; [|done..]. specialize (Hf a w').
  destruct (f a w'); [lia|done..].
Qed.

Lemma advances_print (line : list frag) : advances false (print line).
Proof. intros w. simpl. lia. Qed.

Lemma advances_input (prompt : list frag) : advances true (input prompt).
Proof. intros w. unfold input. destruct (stdin w); simpl; [done|lia]. Qed.

Lemma advances_get_appliances : advances false get_appliances.
Proof. intros w. simpl. lia. Qed.

Lemma advances_set_appliances (l : list dict) : advances false (set_appliances l).
Proof. intros w. simpl. lia. Qed.

Lemma advances_get_files : advances false get_files.
Proof. intros w. simpl. lia. Qed.

Lemma advances_set_files (fs : gmap string string) : advances false (set_files fs).
Proof. intros w. simpl. lia. Qed.

Lemma advances_lift {A : Type} (r : result A) : advances false (lift r).
Proof. destruct r; [apply advances_ret|apply advances_raise]. Qed.

Lemma advances_getitem (d : dict) (k : string) : advances false (getitem d k).
Proof. unfold getitem. destruct (items d !! k); [apply advances_ret|apply advances_raise]. Qed.

Lemma advances_as_floats (a b : value) : advances false (as_floats a b).
Proof. destruct a, b; first [apply advances_raise | apply advances_ret]. Qed.

Lemma advances_appliance_at (i : Z) : advances false (appliance_at i).
Proof.
  apply advances_bind; [apply advances_get_appliances|]. intros apps.
  destruct (_ ≫= _); [apply advances_ret|apply advances_raise].
Qed.

Lemma advances_setitem_at (i : Z) (k : string) (v : value) :
  advances false (setitem_at i k v).
Proof.
  apply advances_bind; [apply advances_get_appliances|]. intros apps.
  destruct (position _ _); [apply advances_set_appliances|apply advances_raise].
Qed.

Lemma advances_pop (i : Z) : advances false (pop i).
Proof.
  apply advances_bind; [apply advances_get_appliances|]. intros apps.
  destruct (position _ _); [apply advances_set_appliances|apply advances_raise].
Qed.

Lemma advances_append (app : dict) : advances false (append app).
Proof.
  apply advances_bind; [apply advances_get_appliances|]. intros apps.
  apply advances_set_appliances.
Qed.

Lemma advances_for_each {A : Type} (f : A -> M unit) (l : list A) :
  (forall x, advances false (f x)) -> advances false (for_each f l).
Proof.
  intros Hf. induction l as [|x l IH]; [apply advances_ret|].
  simpl. apply advances_bind; [apply Hf|]. by intros _.
Qed.

Lemma advances_foldl {A B : Type} (step : M B -> A -> M B) (l : list A) : forall (init : M B),
  advances false init ->
  (forall acc x, advances false acc -> advances false (step acc x)) ->
  advances false (foldl step init l).
Proof.
  induction l as [|x l IH]; intros init Hinit Hstep; [done|].
  simpl. apply IH; [|done]. by apply Hstep.
Qed.

Lemma advances_consumes {A : Type} (body : M (option A)) :
  advances true body -> consumes body.
Proof. intros Hb w w' Hw. specialize (Hb w). by rewrite Hw in Hb. Qed.

(** A loop whose rounds each read a reply ends, by returning or by an
    exception, before its fuel does. *)
Lemma advances_loop {A : Type} (body : M (option A)) :
  advances true body -> advances true (loop body).
Proof.
  intros Hb w. remember (List.length (stdin w)) as n eqn:Hn.
  revert w Hn. induction (lt_wf n) as [n _ IH]. intros w ->.
  rewrite (loop_unfold _ _ (advances_consumes _ Hb)).
  specialize (Hb w). destruct (body w) as [[a|] w'| |]; [done| |done..].
  specialize (IH _ Hb w' eq_refl). destruct (loop body w'); [lia|done..].
Qed.

Create HintDb advances.
#[export] Hint Resolve advances_ret advances_raise advances_print advances_get_appliances
  advances_set_appliances advances_get_files advances_set_files advances_lift
  advances_getitem advances_as_floats advances_appliance_at advances_setitem_at
  advances_pop advances_append advances_weaken advances_input : advances.

(** Walks down a program that may read replies. *)
Ltac advances_step :=
  lazymatch goal with
  | |- advances false (mret _) => apply advances_ret
  | |- advances false (_ ≫= _) =>
      apply advances_bind;
      [first [solve [eauto with advances] | solve [repeat advances_step]]|];
      intros ?
  | |- advances _ (if ?b then _ else _) => destruct b
  | |- advances _ (match ?x with Some _ => _ | None => _ end) => destruct x
  | |- advances _ (let '(_, _) := ?x in _) => destruct x
  | |- advances false (for_each _ _) => apply advances_for_each; intros ?
  | |- advances false _ => solve [eauto with advances]
  end.

Lemma advances_get_positive_float (prompt : list frag) :
  advances true (get_positive_float prompt).
Proof.
  apply advances_loop, advances_bind_l; [apply advances_input|]. intros reply.
  repeat advances_step.
Qed.

Lemma advances_get_int (prompt : list frag) (lo hi : option Z) :
  advances true (get_int prompt lo hi).
Proof.
  apply advances_loop, advances_bind_l; [apply advances_input|]. intros reply.
  repeat advances_step.
Qed.

Lemma advances_show_menu : advances true show_menu.
Proof.
  unfold show_menu.
  repeat (apply advances_bind_r; [apply advances_print|]; intros _).
  apply advances_input.
Qed.

#[export] Hint Resolve advances_get_positive_float advances_get_int advances_show_menu
  : advances.

Lemma advances_edit_listing (apps : list dict) : advances false (edit_listing apps).
Proof. unfold edit_listing. repeat advances_step. Qed.

Lemma advances_edit_sub_action (choice : Z) (app : dict) (sub_option : string) :
  advances false (edit_sub_action choice app sub_option).
Proof. unfold edit_sub_action. repeat advances_step. Qed.

Lemma advances_edit_appliance_body : advances true edit_appliance_body.
Proof.
  unfold edit_appliance_body.
  apply advances_bind_r; [apply advances_print|]. intros _.
  apply advances_bind_r; [apply advances_get_appliances|]. intros apps.
  apply advances_bind_r; [apply advances_edit_listing|]. intros _.
  apply advances_bind_l; [apply advances_get_int|]. intros choice.
  repeat advances_step. apply advances_edit_sub_action.
Qed.

Lemma advances_edit_appliance : advances false edit_appliance.
Proof.
  unfold edit_appliance. repeat advances_step.
  apply advances_weaken, advances_loop, advances_edit_appliance_body.
Qed.

Lemma advances_view_appliances : advances false view_appliances.
Proof. unfold view_appliances. repeat advances_step. Qed.

#[export] Hint Resolve advances_edit_appliance advances_view_appliances : advances.

Lemma advances_main_dispatch (option : string) : advances false (main_dispatch option).
Proof.
  unfold main_dispatch. repeat advances_step.
  apply advances_bind; [|intros ?; repeat advances_step].
  apply advances_foldl; [apply advances_ret|].
  intros acc app Hacc. apply advances_bind; [exact Hacc|]. intros ?.
  repeat advances_step.
Qed.

Lemma advances_main_body : advances true main_body.
Proof.
  unfold main_body. apply advances_bind_l; [apply advances_show_menu|].
  intros reply. apply advances_main_dispatch.
Qed.

Lemma advances_main : advances false main.
Proof.
  unfold main. repeat advances_step.
  apply advances_bind; [apply advances_weaken, advances_loop, advances_main_body|].
  intros _. repeat advances_step.
Qed.

(** X20: no loop of the program goes round without reading a reply.  On
    any list of replies the program, its menu loop, the edit flow and the
    two input helpers therefore end, with a result or with an exception:
    the fuel of one round more than there are replies left is never used
    up. *)
Lemma program_never_times_out (w w' : world) :
  main w <> Timeout w' /\
  loop main_body w <> Timeout w' /\
  edit_appliance w <> Timeout w' /\
  (forall prompt, get_positive_float prompt w <> Timeout w') /\
  (forall prompt lo hi, get_int prompt lo hi w <> Timeout w').
Proof.
  split; [|split; [|split; [|split]]].
  - pose proof (advances_main w) as H. intros Heq. by rewrite Heq in H.
  - pose proof (advances_loop _ advances_main_body w) as H. intros Heq. by rewrite Heq in H.
  - pose proof (advances_edit_appliance w) as H. intros Heq. by rewrite Heq in H.
  - intros prompt. pose proof (advances_get_positive_float prompt w) as H.
    intros Heq. by rewrite Heq in H.
  - intros prompt lo hi. pose proof (advances_get_int prompt lo hi w) as H.
    intros Heq. by rewrite Heq in H.
Qed.
(** * Validated integers *)












(** * Adding and editing appliances *)












(** * Selections, empty lists and listings *)

(** A loop whose commands each write one event writes them in order. *)
Lemma for_each_prints {A : Type} (f : A -> M unit) (g : A -> event) (l : list A) :
  Forall (fun x => forall w, f x w = Ok tt (console w (stdin w) [g x])) l ->
  forall w, for_each f l w = Ok tt (console w (stdin w) (g <$> l)).
Proof.
  induction 1 as [|x l Hx _ IH]; intros w; simpl.
  - by rewrite console_id.
  - rewrite bind_unfold, Hx, IH. by rewrite console_console.
Qed.



(** X8: with no appliance in the list, the two calculations, the edit flow
    and the listing write their one message and go back to the menu: no
    reply is read, no price is asked for, nothing is raised. *)
Theorem empty_list_nothing_to_do (w : world) (option : string) :
  appliances w = [] ->
  option = "2" \/ option = "3" \/ option = "4" \/ option = "5" ->
  main_dispatch option w =
  Ok None
    (console w (stdin w)
       [Print [Lit (if bool_decide (option = "4") then "⚠️ No appliances to edit."
                    else "⚠️ No appliances added yet.")]]).
Proof.
  intros Hnil [-> | [-> | [-> | ->]]]; unfold main_dispatch;
    rewrite !bool_decide_eq_false_2 by discriminate;
    rewrite bool_decide_eq_true_2 by reflexivity.
  - rewrite bind_unfold, get_appliances_run, Hnil. reflexivity.
  - rewrite bind_unfold, get_appliances_run, Hnil. reflexivity.
  - unfold edit_appliance.
    rewrite !bind_unfold, get_appliances_run, Hnil. reflexivity.
  - unfold view_appliances.
    rewrite !bind_unfold, get_appliances_run, Hnil. reflexivity.
Qed.

Lemma empty_list_nothing_to_do_witness :
  main_dispatch "4" test_console =
  Ok None (console test_console ["-5"; "abc"; "3.5"] [Print [Lit "⚠️ No appliances to edit."]]).
Proof.
  apply (empty_list_nothing_to_do test_console "4").
  - reflexivity.
  - right. right. by left.
Defined.

Lemma column_lookup (app : dict) (k : string) (v : value) :
  items app !! k = Some v -> column app k = v.
Proof. intros Hk. unfold column. by rewrite Hk. Qed.

(** X9: the listing.  For a list that is not empty, [view_appliances]
    writes the heading and then one line per appliance, in the order of
    the list and numbered from 1, with the name, the watts and the hours of
    the appliance; it reads no reply and leaves the list as it was. *)
Theorem view_lists_every_appliance (w : world) :
  appliances w <> [] ->
  Forall has_columns (appliances w) ->
  view_appliances w =
  Ok tt
    (console w (stdin w)
       (Print [Lit (nl +:+ "📋 Registered Appliances:")] :: imap view_line (appliances w))).
Proof.
  intros Hne Hcols. unfold view_appliances.
  rewrite bind_unfold, get_appliances_run.
  destruct (appliances w) as [|app apps] eqn:Happs; [done|].
  change (is_nil (app :: apps)) with false. cbv iota.
  rewrite bind_unfold, print_run.
  rewrite (for_each_prints _ (fun '(i, app) => view_line (Z.to_nat i) app)).
  - rewrite console_console, stdin_console. do 3 f_equal.
    unfold enumerate. rewrite fmap_imap. apply imap_ext.
    intros i x _. simpl. by rewrite Nat2Z.id.
  - apply Forall_forall. intros [i x] Hin.
    apply list_elem_of_lookup in Hin as [j Hj].
    unfold enumerate in Hj. rewrite list_lookup_imap in Hj.
    destruct ((app :: apps) !! j) as [d|] eqn:Hd; simplify_eq/=.
    rewrite Forall_forall in Hcols.
    destruct (Hcols x) as ([n Hn] & [wt Hw] & [h Hh]); [by eapply list_elem_of_lookup_2|].
    intros w0.
    rewrite bind_unfold, (getitem_run _ _ _ _ Hn), bind_unfold, (getitem_run _ _ _ _ Hw),
      bind_unfold, (getitem_run _ _ _ _ Hh), print_run.
    unfold view_line.
    rewrite (column_lookup _ _ _ Hn), (column_lookup _ _ _ Hw), (column_lookup _ _ _ Hh).
    by rewrite Nat2Z.id.
Qed.

Lemma view_lists_every_appliance_witness :
  view_appliances (kitchen_world ["5"]) =
  Ok tt
    (console (kitchen_world ["5"]) ["5"]
       (Print [Lit (nl +:+ "📋 Registered Appliances:")] :: imap view_line kitchen)).
Proof.
  apply (view_lists_every_appliance (kitchen_world ["5"])).
  - discriminate.
  - apply kitchen_has_columns.
Defined.
(** * Edge cases of the persistence *)

Lemma convert_field_float (k : string) (row row' : dict) :
  convert_field k row = Return row' -> exists x, items row' !! k = Some (VFloat x).
Proof.
  unfold convert_field. destruct (items row !! k) as [v|]; [|done].
  destruct (to_float v) as [x|]; [|done]. intros [= <-]. exists x.
  simpl. by rewrite lookup_insert_eq.
Qed.

Lemma convert_row_numeric (row d : dict) : convert_row row = Return d -> numeric d.
Proof.
  unfold convert_row. destruct (convert_field "watts" row) as [row'|] eqn:Hw; [|done].
  intros Hh. destruct (convert_field_float _ _ _ Hw) as [x Hx].
  destruct (convert_field_float _ _ _ Hh) as [y Hy].
  exists x, y. split; [|done].
  by rewrite (convert_field_other "hours_per_day" "watts" _ _ ltac:(done) Hh).
Qed.

Lemma load_rows_numeric (rows : list dict) (err : option exn) : forall apps,
  load_rows rows err = Return apps -> Forall numeric apps.
Proof.
  induction rows as [|row rows IH]; intros apps; simpl.
  - destruct err; [done|]. by intros [= <-].
  - destruct (convert_row row) as [d|] eqn:Hd; [|done].
    destruct (load_rows rows err) as [apps'|]; [|done]. intros [= <-].
    constructor; [by eapply convert_row_numeric|by apply IH].
Qed.

(** X10: whatever the file holds, every appliance of a list that
    [load_appliances_from_csv] returns has floats as its watts and its
    hours: a list is returned only when every row converted. *)
Theorem loaded_appliances_are_numeric (path : string) (fs : gmap string string)
    (apps : list dict) :
  load_appliances_from_csv path fs = Return apps -> Forall numeric apps.
Proof.
  unfold load_appliances_from_csv. destruct (fs !! path) as [text|].
  - destruct (dict_reader text) as [rows err]. apply load_rows_numeric.
  - by intros [= <-].
Qed.

Lemma loaded_appliances_are_numeric_witness :
  Forall numeric [add_appliance EmptyString (-5) 0].
Proof.
  apply (loaded_appliances_are_numeric "appliances.csv"
           {[ "appliances.csv" := unchecked_file ]}).
  vm_compute. reflexivity.
Defined.

Lemma convert_field_missing (k : string) (row : dict) :
  items row !! k = None -> convert_field k row = Raised (KeyError k).
Proof. intros Hk. unfold convert_field. by rewrite Hk. Qed.

Lemma convert_field_none (k : string) (row : dict) :
  items row !! k = Some VNone -> convert_field k row = Raised TypeError.
Proof. intros Hk. unfold convert_field. by rewrite Hk. Qed.

(** X11: a row without one of the numeric columns ends the load.  When the
    header of the file does not name the column the row has no such key,
    and the load raises [KeyError]; when the row is shorter than the header
    the cell is [None], and the load raises [TypeError].  Neither is
    caught, and no list is returned. *)
Theorem load_incomplete_row_raises (fs : gmap string string) (path text : string)
    (before after : list dict) (row : dict) (err : option exn) (k : string) :
  fs !! path = Some text ->
  dict_reader text = (before ++ row :: after, err) ->
  Forall converts before ->
  k = "watts" \/
  (k = "hours_per_day" /\ exists row', convert_field "watts" row = Return row') ->
  (items row !! k = None ->
   load_appliances_from_csv path fs = Raised (KeyError k)) /\
  (items row !! k = Some VNone ->
   load_appliances_from_csv path fs = Raised TypeError).
Proof.
  intros Hfile Hrows Hbefore Hk. unfold load_appliances_from_csv. rewrite Hfile, Hrows.
  split; intros Hcell; apply load_rows_raises_first; try done; unfold convert_row.
  - destruct Hk as [-> | (-> & row' & Hw)].
    + by rewrite convert_field_missing.
    + rewrite Hw. apply convert_field_missing.
      by rewrite (convert_field_other "watts" "hours_per_day" _ _ ltac:(done) Hw).
  - destruct Hk as [-> | (-> & row' & Hw)].
    + by rewrite convert_field_none.
    + rewrite Hw. apply convert_field_none.
      by rewrite (convert_field_other "watts" "hours_per_day" _ _ ltac:(done) Hw).
Qed.

Lemma load_incomplete_row_raises_witness :
  load_appliances_from_csv "appliances.csv" {[ "appliances.csv" := two_column_file ]} =
  Raised (KeyError "hours_per_day") /\
  load_appliances_from_csv "appliances.csv" {[ "appliances.csv" := short_row_file ]} =
  Raised TypeError.
Proof.
  split.
  - destruct (load_incomplete_row_raises {[ "appliances.csv" := two_column_file ]}
                "appliances.csv" two_column_file
                [] [] (make_dict ["name"; "watts"] ["Lamp"; "60"]) None "hours_per_day")
      as [Hkey _].
    + vm_compute. reflexivity.
    + vm_compute. reflexivity.
    + constructor.
    + right. split; [reflexivity|]. eexists. vm_compute. reflexivity.
    + apply Hkey. vm_compute. reflexivity.
  - destruct (load_incomplete_row_raises {[ "appliances.csv" := short_row_file ]}
                "appliances.csv" short_row_file
                [] [] (make_dict fieldnames ["Lamp"; "60"]) None "hours_per_day")
      as [_ Hnone].
    + vm_compute. reflexivity.
    + vm_compute. reflexivity.
    + constructor.
    + right. split; [reflexivity|]. eexists. vm_compute. reflexivity.
    + apply Hnone. vm_compute. reflexivity.
Defined.

Lemma write_rows_stops (before after : list dict) (d : dict) :
  forall (text : string) (rows : list (list string)),
  Forall2 (fun d row => dict_to_list d = Return row) before rows ->
  dict_to_list d = Raised ValueError ->
  write_rows (before ++ d :: after) text = (text +:+ rows_text rows, Some ValueError).
Proof.
  induction before as [|b before IH]; intros text rows Hrows Hd;
    inversion Hrows as [|? row ? rows' Hb Hrest]; subst; simpl.
  - by rewrite Hd, app_nil_r.
  - rewrite Hb, (IH _ rows') by done. by rewrite app_assoc.
Qed.

Lemma dict_to_list_foreign_key (d : dict) :
  foreign_key d -> dict_to_list d = Raised ValueError.
Proof.
  intros [Hextra | Hdom]; unfold dict_to_list.
  - rewrite (bool_decide_eq_false_2 (extra d = None)) by done. by rewrite andb_false_r.
  - by rewrite (bool_decide_eq_false_2 _ Hdom).
Qed.

(** X12: a dict with a key that is not one of the three columns stops
    [save_appliances_to_csv] with [ValueError].  The file was opened for
    writing before, so it is left with the header and the rows of the
    appliances before that dict: the dict and the appliances after it are
    not in the file. *)
Theorem save_stops_at_foreign_key (before after : list dict) (d : dict)
    (rows : list (list string)) (path : string) (fs : gmap string string) :
  Forall2 (fun d row => dict_to_list d = Return row) before rows ->
  foreign_key d ->
  save_appliances_to_csv (before ++ d :: after) path fs =
  (<[path := rows_text (fieldnames :: rows)]> fs, Some ValueError).
Proof.
  intros Hrows Hd. unfold save_appliances_to_csv.
  by rewrite (write_rows_stops before after d _ rows Hrows (dict_to_list_foreign_key d Hd)).
Qed.

(** The row of the sample file with a cell too many is loaded, with the
    surplus cell kept under a key of its own; the file saved from the
    loaded list holds the appliance before it only. *)
Lemma save_stops_at_foreign_key_witness :
  exists tv lamp,
    load_appliances_from_csv "appliances.csv" {[ "appliances.csv" := long_row_file ]} =
    Return [tv; lamp] /\
    save_appliances_to_csv ([tv] ++ lamp :: []) "appliances.csv"
      {[ "appliances.csv" := long_row_file ]} =
    (<["appliances.csv" := rows_text [fieldnames; ["TV"; "120.0"; "4.0"]]]>
       {[ "appliances.csv" := long_row_file ]}, Some ValueError).
Proof.
  eexists _, _. split; [vm_compute; reflexivity|].
  apply (save_stops_at_foreign_key _ [] _ [["TV"; "120.0"; "4.0"]] "appliances.csv").
  - constructor; [vm_compute; reflexivity|constructor].
  - left. discriminate.
Defined.
(** * The exceptions of a session *)

Section Runs.
Context (fs : gmap string string).









Lemma runs_get_appliances (R : list dict -> Prop) :
  runs fs R get_appliances (fun apps l => apps = l /\ R l).
Proof. by intros w Hfs Hw. Qed.

Lemma runs_set_appliances (l' : list dict) (R : list dict -> Prop) :
  runs fs R (set_appliances l') (fun _ l => l = l').
Proof. by intros w Hfs Hw. Qed.

Lemma runs_getitem (d : dict) (k : string) (R : list dict -> Prop) :
  is_Some (items d !! k) ->
  runs fs R (getitem d k) (fun v l => items d !! k = Some v /\ R l).
Proof. intros [v Hv] w Hfs Hw. unfold getitem. by rewrite Hv. Qed.








End Runs.
(** ** The commands of the program *)






Section Session.
Context (fs : gmap string string).


















End Session.
(** ** The session and the program *)










(** * The reports *)








(** X18: a file that cannot be loaded stops the program before the menu.
    The exception of the load is not caught by [main]: it ends the program
    with nothing written, no reply read and the file as it was. *)
Theorem main_stops_on_unreadable_file (w : world) (e : exn) :
  load_appliances_from_csv "appliances.csv" (files w) = Raised e ->
  main w = Raise e w.
Proof.
  intros Hload. unfold main. rewrite bind_unfold.
  change (get_files w) with (Ok (files w) w). cbv iota.
  by rewrite Hload.
Qed.

Lemma main_stops_on_unreadable_file_witness :
  main (session_with_file bad_file ["5"; "0"]) =
  Raise ValueError (session_with_file bad_file ["5"; "0"]).
Proof.
  apply (main_stops_on_unreadable_file (session_with_file bad_file ["5"; "0"]) ValueError).
  vm_compute. reflexivity.
Defined.

Lemma household_round_trip_witness :
  exists (fs' : gmap string string) (loaded : list dict),
    save_appliances_to_csv kitchen "appliances.csv" ∅ = (fs', None) /\
    load_appliances_from_csv "appliances.csv" fs' = Return loaded /\
    Forall2 same_appliance kitchen loaded.
Proof.
  apply (household_round_trip kitchen "appliances.csv" ∅).
  constructor; [|constructor; [|constructor]].
  - exists "Lamp", 60%float, 5%float.
    split; [reflexivity|]. split; [by vm_compute|].
    unfold household_grid.
    apply list_elem_of_bind. exists 60%float.
    split; [|by apply (list_elem_of_lookup_2 _ 59%nat)].
    apply list_elem_of_bind. exists 5%float.
    split; [|by apply (list_elem_of_lookup_2 _ 19%nat)].
    left.
  - exists "TV", 120%float, 4%float.
    split; [reflexivity|]. split; [by vm_compute|].
    unfold household_grid.
    apply list_elem_of_bind. exists 120%float.
    split; [|by apply (list_elem_of_lookup_2 _ 119%nat)].
    apply list_elem_of_bind. exists 4%float.
    split; [|by apply (list_elem_of_lookup_2 _ 15%nat)].
    left.
Defined.
